(** * Key bits of rest_framework_extensions.key_constructor.bits

    A shallow embedding of the key-bit classes of
    [rest_framework_extensions/key_constructor/bits.py] and the
    properties of their [get_data] methods. *)

From Stdlib Require Import ZArith Ascii String DecimalString.
From stdpp Require Import base option list strings gmap.

Local Open Scope string_scope.

(** ** Python values and exceptions *)

(** The values that reach a key bit: header and query-string values,
    keyword arguments, user identifiers, the active language. *)
Inductive value : Type :=
| VNone
| VBool (b : bool)
| VInt (z : Z)
| VStr (s : string).

(** [value is not None] *)
Definition is_not_None (v : value) : bool :=
  match v with VNone => false | _ => true end.

(** The exceptions the bits raise themselves, and those that come from
    the objects they call: a subclass of [ValueError] (such as
    [UnicodeDecodeError]) or a class that does not derive from it (such
    as Django's [EmptyResultSet]), each by its name. *)
Inductive exn : Type :=
| NotImplementedError
| TypeError
| KeyError
| IndexError
| AttributeError
| ValueError
| ValueErrorSubclass (name : string)
| OtherException (name : string).

(** [isinstance(e, ValueError)], the test of [except ValueError]: the
    class itself and its subclasses. *)
Definition is_ValueError (e : exn) : bool :=
  match e with
  | ValueError | ValueErrorSubclass _ => true
  | _ => false
  end.

(** A call either returns or raises. *)
Inductive Result (A : Type) : Type :=
| Ok (a : A)
| Raise (e : exn).
Arguments Ok {A} a.
Arguments Raise {A} e.

#[global] Instance Result_ret : MRet Result := fun A a => Ok a.
#[global] Instance Result_bind : MBind Result := fun A B k r =>
  match r with Ok a => k a | Raise e => Raise e end.

(** Modelled from the spec: [force_text] is imported from
    [rest_framework_extensions.compat], which is not part of the sources
    at hand; the spec calls it the text coercion of a value.  Text is
    returned as it is, any other value through its Python text form. *)
Definition force_text (v : value) : string :=
  match v with
  | VNone => "None"
  | VBool true => "True"
  | VBool false => "False"
  | VInt z => NilZero.string_of_int (Z.to_int z)
  | VStr s => s
  end.

(** ** The objects a key bit reads *)

(** [request.user]: [None] or a user object. *)
Record User : Type := {
  user_is_authenticated : bool;   (* user.is_authenticated() *)
  user_id : value                 (* user.id *)
}.

Inductive UserRef : Type :=
| UserNone
| UserObject (u : User).

(** Truth value of [request.user]: [None] is false, an object is true. *)
Definition truthy_user (u : UserRef) : bool :=
  match u with UserNone => false | UserObject _ => true end.

Record Request : Type := {
  request_user : option UserRef;        (* [None]: no attribute [user] *)
  request_META : gmap string value;
  request_GET : gmap string value;
  request_accepted_renderer_format : value
}.

(** A queryset, as far as the bits look at it. *)
#[local] Unset Elimination Schemes.
Inductive QuerySet : Type := {
  isinstance_EmptyQuerySet : bool;
  query_str : Result string;                            (* queryset.query.__str__() *)
  qs_filter : string -> value -> Result QuerySet        (* queryset.filter(field=v) *)
}.
#[local] Set Elimination Schemes.

Record View : Type := {
  view_module : string;                       (* view_instance.__module__ *)
  view_class_name : string;                   (* view_instance.__class__.__name__ *)
  view_page_kwarg : option string;            (* [None]: no such attribute *)
  view_paginate_by_param : option string;     (* [None]: no such attribute *)
  view_kwargs : gmap string value;
  view_lookup_field : string;
  view_get_queryset : Result QuerySet;
  view_filter_queryset : QuerySet -> Result QuerySet
}.

Record Method : Type := {
  method_name : string                        (* view_method.__name__ *)
}.

(** The arguments of [get_data].  Field names are text; [params] is
    [None] when the bit was declared without any; [args] is the tuple of
    positional arguments of the view method. *)
Record Ctx : Type := {
  params : option (list string);
  view_instance : View;
  view_method : Method;
  request : Request;
  args : list value;
  kwargs : gmap string value
}.

Definition with_params (p : option (list string)) (c : Ctx) : Ctx :=
  {| params := p; view_instance := view_instance c;
     view_method := view_method c; request := request c;
     args := args c; kwargs := kwargs c |}.

(** What [get_data] returns: [None], text, a new list, the tuple of
    positional arguments it was called with, or a mapping. *)
Inductive Data : Type :=
| DNone
| DText (s : string)
| DList (l : list value)
| DTuple (l : list value)
| DDict (d : gmap string string).

(** ** KeyBitBase *)

Module KeyBitBase.

Definition get_data (c : Ctx) : Result Data := Raise NotImplementedError.

End KeyBitBase.

(** ** KeyBitDictBase *)

(** The three methods a dict-source bit may override. *)
Class DictSource : Type := {
  get_source_dict : Ctx -> Result (gmap string value);
  prepare_key_for_value_retrieving : string -> string;
  prepare_key_for_value_assignment : string -> string
}.

(** [source_dict.get(key)]: [None] when the key is missing. *)
Definition dict_get (d : gmap string value) (k : string) : value :=
  default VNone (d !! k).

(** What a source value contributes: nothing for [None], its text
    otherwise. *)
Definition present_text (v : value) : option string :=
  if is_not_None v then Some (force_text v) else None.

Definition text_at (source_dict : gmap string value) (k : string)
  : option string :=
  present_text (dict_get source_dict k).

Module KeyBitDictBase.

Section get_data.
Context {D : DictSource}.

(** One turn of [for key in params]. *)
Definition step (source_dict : gmap string value)
    (data : gmap string string) (key : string) : gmap string string :=
  let value := dict_get source_dict (prepare_key_for_value_retrieving key) in
  if is_not_None value
  then <[prepare_key_for_value_assignment key := force_text value]> data
  else data.

Definition collect (source_dict : gmap string value) (keys : list string)
  : gmap string string :=
  foldl (step source_dict) ∅ keys.

Definition get_data (c : Ctx) : Result Data :=
  source_dict ← get_source_dict c;
  match params c with
  | None => Raise TypeError               (* for key in None *)
  | Some keys => Ok (DDict (collect source_dict keys))
  end.

End get_data.

(** The methods of the base class itself. *)
Definition hooks : DictSource := {|
  get_source_dict := fun _ => Raise NotImplementedError;
  prepare_key_for_value_retrieving := fun key => key;
  prepare_key_for_value_assignment := fun key => key
|}.

End KeyBitDictBase.

(** ** Identity bits *)

(** [u'.'.join(parts)] *)
Definition join_dot (parts : list string) : string := String.concat "." parts.

Module UniqueViewIdKeyBit.

Definition get_data (c : Ctx) : Result Data :=
  Ok (DText (join_dot [view_module (view_instance c);
                       view_class_name (view_instance c)])).

End UniqueViewIdKeyBit.

Module UniqueMethodIdKeyBit.

Definition get_data (c : Ctx) : Result Data :=
  Ok (DText (join_dot [view_module (view_instance c);
                       view_class_name (view_instance c);
                       method_name (view_method c)])).

End UniqueMethodIdKeyBit.

(** ** Request-context bits *)

Module LanguageKeyBit.

(** [language] is what [get_language()] returns at the call. *)
Definition get_data (language : value) (c : Ctx) : Result Data :=
  Ok (DText (force_text language)).

End LanguageKeyBit.

Module FormatKeyBit.

Definition get_data (c : Ctx) : Result Data :=
  Ok (DText (force_text (request_accepted_renderer_format (request c)))).

End FormatKeyBit.

Module UserKeyBit.

(** [user.is_authenticated()]; [None] has no such method. *)
Definition is_authenticated (user : UserRef) : Result bool :=
  match user with
  | UserObject u => Ok (user_is_authenticated u)
  | UserNone => Raise AttributeError
  end.

(** [user.id] *)
Definition _get_id_from_user (user : UserRef) : Result value :=
  match user with
  | UserObject u => Ok (user_id u)
  | UserNone => Raise AttributeError
  end.

(** [hasattr(request, 'user') and request.user and
    request.user.is_authenticated()], left to right. *)
Definition authenticated (r : Request) : Result bool :=
  match request_user r with
  | None => Ok false
  | Some user =>
      if truthy_user user then is_authenticated user else Ok false
  end.

Definition get_data (c : Ctx) : Result Data :=
  a ← authenticated (request c);
  if a : bool then
    match request_user (request c) with
    | Some user => id ← _get_id_from_user user; Ok (DText (force_text id))
    | None => Raise AttributeError
    end
  else Ok (DText "anonymous").

End UserKeyBit.

(** ** Dict-source bits *)

(** Python's [str.lower] on ASCII text. *)
Definition lower_ascii (a : Ascii.ascii) : Ascii.ascii :=
  let n := Ascii.N_of_ascii a in
  if ((65 <=? n) && (n <=? 90))%N then Ascii.ascii_of_N (n + 32) else a.

Fixpoint lower (s : string) : string :=
  match s with
  | EmptyString => EmptyString
  | String a rest => String (lower_ascii a) (lower rest)
  end.

Fixpoint replace_char (old new : Ascii.ascii) (s : string) : string :=
  match s with
  | EmptyString => EmptyString
  | String a rest =>
      String (if Ascii.eqb a old then new else a) (replace_char old new rest)
  end.

(** Modelled from the spec: [prepare_header_name] lives in
    [rest_framework_extensions.utils], which is not part of the sources
    at hand.  The spec describes it as the transformation of a header
    name into its environment lookup form, ["Accept-Language"] giving
    ["http_accept_language"] (the call site passes the lower-cased name):
    the prefix ["http_"] and every hyphen turned into an underscore. *)
Definition prepare_header_name (name : string) : string :=
  "http_" ++ replace_char "-"%char "_"%char name.

Module HeadersKeyBit.

Definition hooks : DictSource := {|
  get_source_dict := fun c => Ok (request_META (request c));
  prepare_key_for_value_retrieving := fun key => prepare_header_name (lower key);
  prepare_key_for_value_assignment := fun key => lower key
|}.

Definition get_data : Ctx -> Result Data := KeyBitDictBase.get_data (D := hooks).

End HeadersKeyBit.

Module RequestMetaKeyBit.

Definition hooks : DictSource := {|
  get_source_dict := fun c => Ok (request_META (request c));
  prepare_key_for_value_retrieving := fun key => key;
  prepare_key_for_value_assignment := fun key => key
|}.

Definition get_data : Ctx -> Result Data := KeyBitDictBase.get_data (D := hooks).

End RequestMetaKeyBit.

Module QueryParamsKeyBit.

Definition hooks : DictSource := {|
  get_source_dict := fun c => Ok (request_GET (request c));
  prepare_key_for_value_retrieving := fun key => key;
  prepare_key_for_value_assignment := fun key => key
|}.

Definition get_data : Ctx -> Result Data := KeyBitDictBase.get_data (D := hooks).

End QueryParamsKeyBit.

Module PaginationKeyBit.

(** The list built in [kwargs['params']]: it starts empty, whatever the
    caller passed.  The view's attributes are [hasattr]-tested; a
    declared name is text. *)
Definition pagination_params (view : View) : list string :=
  let params : list string := [] in
  let params :=
    match view_page_kwarg view with
    | Some page_kwarg => (params ++ [page_kwarg])%list
    | None => params
    end in
  let params :=
    match view_paginate_by_param view with
    | Some paginate_by_param => (params ++ [paginate_by_param])%list
    | None => params
    end in
  params.

Definition get_data (c : Ctx) : Result Data :=
  QueryParamsKeyBit.get_data
    (with_params (Some (pagination_params (view_instance c))) c).

End PaginationKeyBit.

Module KwargsKeyBit.

Definition hooks : DictSource := {|
  get_source_dict := fun c => Ok (kwargs c);
  prepare_key_for_value_retrieving := fun key => key;
  prepare_key_for_value_assignment := fun key => key
|}.

(** [kwargs.keys()] *)
Definition keys (d : gmap string value) : list string := (map_to_list d).*1.

(** [params or kwargs.keys()]: [None] and the empty list are false. *)
Definition params_or_keys (p : option (list string)) (d : gmap string value)
  : list string :=
  match p with
  | Some (key :: rest) => key :: rest
  | Some [] => keys d
  | None => keys d
  end.

Definition get_data (c : Ctx) : Result Data :=
  KeyBitDictBase.get_data (D := hooks)
    (with_params (Some (params_or_keys (params c) (kwargs c))) c).

End KwargsKeyBit.

(** ** Query-derived bits *)

(** The tail both SQL bits share: [None] for the empty queryset;
    otherwise the query is rendered, which may raise, and its text
    returned. *)
Definition sql_of_queryset (queryset : QuerySet) : Result Data :=
  if isinstance_EmptyQuerySet queryset then Ok DNone
  else
    text ← query_str queryset;
    Ok (DText (force_text (VStr text))).

Module ListSqlQueryKeyBit.

Definition get_data (c : Ctx) : Result Data :=
  qs ← view_get_queryset (view_instance c);
  queryset ← view_filter_queryset (view_instance c) qs;
  sql_of_queryset queryset.

End ListSqlQueryKeyBit.

Module RetrieveSqlQueryKeyBit.

(** [view_instance.kwargs[view_instance.lookup_field]] *)
Definition lookup_value (view : View) : Result value :=
  match view_kwargs view !! view_lookup_field view with
  | Some v => Ok v
  | None => Raise KeyError
  end.

(** The body of the [try]. *)
Definition try_body (view : View) (lookup_value : value) : Result Data :=
  qs ← view_get_queryset view;
  filtered ← view_filter_queryset view qs;
  queryset ← qs_filter filtered (view_lookup_field view) lookup_value;
  sql_of_queryset queryset.

(** [try: body except ValueError: return None] *)
Definition except_ValueError (body : Result Data) : Result Data :=
  match body with
  | Ok d => Ok d
  | Raise e => if is_ValueError e then Ok DNone else Raise e
  end.

Definition get_data (c : Ctx) : Result Data :=
  lookup_value ← lookup_value (view_instance c);
  except_ValueError (try_body (view_instance c) lookup_value).

End RetrieveSqlQueryKeyBit.

(** ** Argument bits *)

Module ArgsKeyBit.

(** [args[i]]: a negative index counts from the end. *)
Definition index (args : list value) (i : Z) : Result value :=
  let n := Z.of_nat (length args) in
  let j := if (i <? 0)%Z then (i + n)%Z else i in
  if (j <? 0)%Z then Raise IndexError
  else match args !! Z.to_nat j with
       | Some v => Ok v
       | None => Raise IndexError
       end.

(** [[args[i] for i in self.params]] *)
Fixpoint select (args : list value) (indexes : list Z) : Result (list value) :=
  match indexes with
  | [] => Ok []
  | i :: rest =>
      v ← index args i;
      vs ← select args rest;
      Ok (v :: vs)
  end.

(** [self_params] is the attribute [self.params], a list of positions.
    With positions a new list is built; without, [args] itself is
    returned. *)
Definition get_data (self_params : option (list Z)) (c : Ctx) : Result Data :=
  match self_params with
  | Some indexes => l ← select (args c) indexes; Ok (DList l)
  | None => Ok (DTuple (args c))
  end.

End ArgsKeyBit.

(** ** The key bit objects and the state around a call *)

(** The classes of the module. *)
Inductive KeyBit : Type :=
| TheKeyBitBase
| TheKeyBitDictBase
| TheUniqueViewIdKeyBit
| TheUniqueMethodIdKeyBit
| TheLanguageKeyBit
| TheFormatKeyBit
| TheUserKeyBit
| TheHeadersKeyBit
| TheRequestMetaKeyBit
| TheQueryParamsKeyBit
| ThePaginationKeyBit
| TheListSqlQueryKeyBit
| TheRetrieveSqlQueryKeyBit
| TheArgsKeyBit
| TheKwargsKeyBit.

(** What outlives a call and is not an argument of it: the attribute
    [self.params] set by [__init__] (read by the args bit, as a list of
    positions) and the language activated for the running thread. *)
Record Store : Type := {
  self_params : option (list Z);
  active_language : value
}.

(** A method call: it may read and write the store, and returns or
    raises. *)
Definition M (A : Type) : Type := Store -> Result A * Store.

Definition M_ret {A} (a : A) : M A := fun s => (Ok a, s).

Definition M_bind {A B} (m : M A) (k : A -> M B) : M B :=
  fun s =>
    match m s with
    | (Ok a, s') => k a s'
    | (Raise e, s') => (Raise e, s')
    end.

(** A computation that does not look at the store. *)
Definition M_lift {A} (r : Result A) : M A := fun s => (r, s).

(** [self.params] *)
Definition read_self_params : M (option (list Z)) :=
  fun s => (Ok (self_params s), s).

(** [get_language()] *)
Definition get_language : M value :=
  fun s => (Ok (active_language s), s).

(** [bit.get_data(params, view_instance, view_method, request, args,
    kwargs)], by the class of [bit]. *)
Definition get_data (bit : KeyBit) (c : Ctx) : M Data :=
  match bit with
  | TheKeyBitBase => M_lift (KeyBitBase.get_data c)
  | TheKeyBitDictBase =>
      M_lift (KeyBitDictBase.get_data (D := KeyBitDictBase.hooks) c)
  | TheUniqueViewIdKeyBit => M_lift (UniqueViewIdKeyBit.get_data c)
  | TheUniqueMethodIdKeyBit => M_lift (UniqueMethodIdKeyBit.get_data c)
  | TheLanguageKeyBit =>
      M_bind get_language (fun language =>
      M_lift (LanguageKeyBit.get_data language c))
  | TheFormatKeyBit => M_lift (FormatKeyBit.get_data c)
  | TheUserKeyBit => M_lift (UserKeyBit.get_data c)
  | TheHeadersKeyBit => M_lift (HeadersKeyBit.get_data c)
  | TheRequestMetaKeyBit => M_lift (RequestMetaKeyBit.get_data c)
  | TheQueryParamsKeyBit => M_lift (QueryParamsKeyBit.get_data c)
  | ThePaginationKeyBit => M_lift (PaginationKeyBit.get_data c)
  | TheListSqlQueryKeyBit => M_lift (ListSqlQueryKeyBit.get_data c)
  | TheRetrieveSqlQueryKeyBit => M_lift (RetrieveSqlQueryKeyBit.get_data c)
  | TheArgsKeyBit =>
      M_bind read_self_params (fun self_params =>
      M_lift (ArgsKeyBit.get_data self_params c))
  | TheKwargsKeyBit => M_lift (KwargsKeyBit.get_data c)
  end.

(** ** Sample objects *)

Definition sample_queryset : QuerySet := {|
  isinstance_EmptyQuerySet := false;
  query_str := Ok "SELECT id FROM comment";
  qs_filter := fun _ _ => Raise ValueError
|}.

Definition empty_queryset : QuerySet := {|
  isinstance_EmptyQuerySet := true;
  query_str := Ok "";
  qs_filter := fun _ _ => Raise ValueError
|}.

Definition sample_view : View := {|
  view_module := "tests.views";
  view_class_name := "CommentView";
  view_page_kwarg := Some "page";
  view_paginate_by_param := Some "page_size";
  view_kwargs := {["pk" := VStr "abc"]};
  view_lookup_field := "pk";
  view_get_queryset := Ok sample_queryset;
  view_filter_queryset := fun qs => Ok qs
|}.

Definition sample_request : Request := {|
  request_user := Some (UserObject {| user_is_authenticated := true;
                                      user_id := VInt 10 |});
  request_META := {["http_accept_language" := VStr "ru"]};
  request_GET := {["page" := VStr "1"; "page_size" := VStr "100"]};
  request_accepted_renderer_format := VStr "json"
|}.

Definition sample_ctx : Ctx := {|
  params := None;
  view_instance := sample_view;
  view_method := {| method_name := "list" |};
  request := sample_request;
  args := [];
  kwargs := {["id" := VStr "5"; "format" := VStr "json"]}
|}.

Definition anonymous_request : Request := {|
  request_user := None;
  request_META := ∅;
  request_GET := {["foo" := VStr "x"; "page" := VStr "2"]};
  request_accepted_renderer_format := VStr "json"
|}.

(** A call that configures the field ["foo"], which the query string
    carries next to the page number. *)
Definition foo_ctx : Ctx := {|
  params := Some ["foo"];
  view_instance := sample_view;
  view_method := {| method_name := "list" |};
  request := anonymous_request;
  args := [VStr "a"; VStr "b"];
  kwargs := ∅
|}.

(** ** Statements about the dict-source contract *)

Section contract.
Context {D : DictSource}.

(** The retrieval key is a function [g] of the assignment key. *)
Definition keyed_by (g : string -> string) : Prop :=
  ∀ key, prepare_key_for_value_retrieving key
         = g (prepare_key_for_value_assignment key).

(** What the contract promises for one field name: no entry when the
    source has no value (or [None]) under the retrieval key, the text of
    the value under the assignment key otherwise. *)
Definition field_outcome (source_dict : gmap string value)
    (data : gmap string string) (key : string) : Prop :=
  match source_dict !! prepare_key_for_value_retrieving key with
  | None | Some VNone => data !! prepare_key_for_value_assignment key = None
  | Some v => data !! prepare_key_for_value_assignment key = Some (force_text v)
  end.

(** [get_data] returns a mapping that keeps the promise for every field
    name of [keys]. *)
Definition honours (get_data : Ctx -> Result Data) (c : Ctx)
    (keys : list string) : Prop :=
  ∃ source_dict data,
    get_source_dict c = Ok source_dict ∧
    get_data c = Ok (DDict data) ∧
    Forall (field_outcome source_dict data) keys.

End contract.

(** The pagination bit as the sentence on explicitly configured fields
    has it: the configured names are looked up, and the view's page and
    page-size names with them. *)
Definition pagination_adds_to_configured (c : Ctx) : Prop :=
  ∀ keys, params c = Some keys →
    PaginationKeyBit.get_data c =
    QueryParamsKeyBit.get_data
      (with_params
         (Some (keys ++ PaginationKeyBit.pagination_params (view_instance c))%list)
         c).

(** ** Statements about the other bits *)

(** A position that [args[i]] accepts: from [-len(args)] up to
    [len(args) - 1]. *)
Definition in_range (args : list value) (i : Z) : Prop :=
  (- Z.of_nat (length args) ≤ i < Z.of_nat (length args))%Z.

(** [range(n)] *)
Definition positions (n : nat) : list Z := Z.of_nat <$> seq 0 n.

(** A name without a dot, as the name of a class or of a method is. *)
Fixpoint no_dot (s : string) : bool :=
  match s with
  | EmptyString => true
  | String a rest => negb (Ascii.eqb a ".") && no_dot rest
  end.

(** The kinds of result a key bit can hand to its caller. *)
Inductive Kind : Type := KNone | KText | KList | KTuple | KDict.

Definition kind_of (d : Data) : Kind :=
  match d with
  | DNone => KNone
  | DText _ => KText
  | DList _ => KList
  | DTuple _ => KTuple
  | DDict _ => KDict
  end.

(** The kinds of result each class can return; none for the two base
    classes. *)
Definition kinds (bit : KeyBit) : list Kind :=
  match bit with
  | TheKeyBitBase | TheKeyBitDictBase => []
  | TheUniqueViewIdKeyBit | TheUniqueMethodIdKeyBit | TheLanguageKeyBit
  | TheFormatKeyBit | TheUserKeyBit => [KText]
  | TheHeadersKeyBit | TheRequestMetaKeyBit | TheQueryParamsKeyBit
  | ThePaginationKeyBit | TheKwargsKeyBit => [KDict]
  | TheListSqlQueryKeyBit | TheRetrieveSqlQueryKeyBit => [KNone; KText]
  | TheArgsKeyBit => [KList; KTuple]
  end.

(** Where the list-SQL bit can meet an exception [e]: in
    [get_queryset], in [filter_queryset], or while the query of a
    queryset other than the empty one is rendered. *)
Inductive list_sql_raises_at (view : View) (e : exn) : Prop :=
| list_get_queryset_raises :
    view_get_queryset view = Raise e → list_sql_raises_at view e
| list_filter_queryset_raises qs :
    view_get_queryset view = Ok qs →
    view_filter_queryset view qs = Raise e → list_sql_raises_at view e
| list_query_str_raises qs queryset :
    view_get_queryset view = Ok qs →
    view_filter_queryset view qs = Ok queryset →
    isinstance_EmptyQuerySet queryset = false →
    query_str queryset = Raise e → list_sql_raises_at view e.

(** Where the guarded block of the retrieve-SQL bit can meet an
    exception [e], the lookup value being [v]: in [get_queryset], in
    [filter_queryset], in [filter] on the lookup field, or while the
    query of a queryset other than the empty one is rendered. *)
Inductive retrieve_sql_raises_at (view : View) (v : value) (e : exn) : Prop :=
| retrieve_get_queryset_raises :
    view_get_queryset view = Raise e → retrieve_sql_raises_at view v e
| retrieve_filter_queryset_raises qs :
    view_get_queryset view = Ok qs →
    view_filter_queryset view qs = Raise e → retrieve_sql_raises_at view v e
| retrieve_filter_raises qs filtered :
    view_get_queryset view = Ok qs →
    view_filter_queryset view qs = Ok filtered →
    qs_filter filtered (view_lookup_field view) v = Raise e →
    retrieve_sql_raises_at view v e
| retrieve_query_str_raises qs filtered queryset :
    view_get_queryset view = Ok qs →
    view_filter_queryset view qs = Ok filtered →
    qs_filter filtered (view_lookup_field view) v = Ok queryset →
    isinstance_EmptyQuerySet queryset = false →
    query_str queryset = Raise e → retrieve_sql_raises_at view v e.

(** A queryset that is not the empty one and whose query cannot be
    rendered: Django raises [EmptyResultSet] for a query that can match
    no row. *)
Definition unrenderable_queryset : QuerySet := {|
  isinstance_EmptyQuerySet := false;
  query_str := Raise (OtherException "EmptyResultSet");
  qs_filter := fun _ _ => Raise ValueError
|}.

Definition unrenderable_ctx : Ctx := {|
  params := None;
  view_instance := {|
    view_module := "tests.views";
    view_class_name := "CommentView";
    view_page_kwarg := None;
    view_paginate_by_param := None;
    view_kwargs := ∅;
    view_lookup_field := "pk";
    view_get_queryset := Ok unrenderable_queryset;
    view_filter_queryset := fun qs => Ok qs
  |};
  view_method := {| method_name := "list" |};
  request := sample_request;
  args := [];
  kwargs := ∅
|}.

(** A view whose [filter_queryset] narrows the queryset it is given. *)
Definition published_queryset : QuerySet := {|
  isinstance_EmptyQuerySet := false;
  query_str := Ok "SELECT id FROM comment WHERE published";
  qs_filter := fun _ _ => Ok empty_queryset
|}.

Definition narrowing_ctx : Ctx := {|
  params := None;
  view_instance := {|
    view_module := "tests.views";
    view_class_name := "CommentView";
    view_page_kwarg := None;
    view_paginate_by_param := None;
    view_kwargs := {["pk" := VInt 7]};
    view_lookup_field := "pk";
    view_get_queryset := Ok sample_queryset;
    view_filter_queryset := fun _ => Ok published_queryset
  |};
  view_method := {| method_name := "list" |};
  request := sample_request;
  args := [];
  kwargs := ∅
|}.

(** The list-SQL bit as the sentence on its two cases has it: [None]
    for the empty queryset, text for every other. *)
Definition list_sql_none_or_text (c : Ctx) : Prop :=
  ∀ qs queryset,
    view_get_queryset (view_instance c) = Ok qs →
    view_filter_queryset (view_instance c) qs = Ok queryset →
    if isinstance_EmptyQuerySet queryset
    then ListSqlQueryKeyBit.get_data c = Ok DNone
    else ∃ text, ListSqlQueryKeyBit.get_data c = Ok (DText text).


(** Two threads with the same configuration and different languages. *)
Definition english_store : Store :=
  {| self_params := Some [1; -1]%Z; active_language := VStr "en" |}.


(** A view whose [get_queryset] fails with a [ValueError]. *)
Definition failing_view (lookup_field : string) : View := {|
  view_module := "tests.views";
  view_class_name := "CommentView";
  view_page_kwarg := None;
  view_paginate_by_param := None;
  view_kwargs := {["pk" := VStr "1"]};
  view_lookup_field := lookup_field;
  view_get_queryset := Raise ValueError;
  view_filter_queryset := fun qs => Ok qs
|}.

Definition failing_ctx (lookup_field : string) : Ctx := {|
  params := None;
  view_instance := failing_view lookup_field;
  view_method := {| method_name := "retrieve" |};
  request := sample_request;
  args := [];
  kwargs := {["pk" := VStr "1"]}
|}.


(** * Properties *)

Example force_text_examples :
  force_text (VInt 10) = "10" ∧ force_text (VInt (-7)) = "-7" ∧
  force_text (VInt 0) = "0" ∧ force_text (VStr "ru") = "ru".
Proof. repeat split. Qed.

Example lower_example : lower "Accept-Language" = "accept-language".
Proof. reflexivity. Qed.

Example prepare_header_name_example :
  prepare_header_name (lower "Accept-Language") = "http_accept_language".
Proof. reflexivity. Qed.

(** ** The loop of KeyBitDictBase.get_data *)

Section collect.
Context {D : DictSource}.

Lemma step_lookup src data key a :
  KeyBitDictBase.step src data key !! a =
    if decide (a = prepare_key_for_value_assignment key)
    then match text_at src (prepare_key_for_value_retrieving key) with
         | Some t => Some t
         | None => data !! a
         end
    else data !! a.
Proof.
  unfold KeyBitDictBase.step, text_at, present_text.
  destruct (is_not_None _); destruct (decide _) as [->|Hne]; try done.
  - by rewrite lookup_insert_eq.
  - by rewrite lookup_insert_ne.
Qed.

Lemma foldl_step_lookup g src keys : keyed_by g → ∀ data a,
  foldl (KeyBitDictBase.step src) data keys !! a =
    if decide (a ∈ prepare_key_for_value_assignment <$> keys)
    then match text_at src (g a) with
         | Some t => Some t
         | None => data !! a
         end
    else data !! a.
Proof.
  intros Hg. induction keys as [|key keys IH]; intros data a.
  - done.
  - cbn [foldl]. rewrite IH, step_lookup, (Hg key), fmap_cons.
    destruct (decide (a = _)) as [->|Hne].
    + rewrite (decide_True (P := _ ∈ _ :: _)) by (apply elem_of_cons; by left).
      destruct (decide _); by destruct (text_at _ _).
    + destruct (decide (a ∈ _ <$> keys)) as [Hin|Hnin].
      * by rewrite decide_True by (apply elem_of_cons; by right).
      * rewrite decide_False; [done|].
        by intros [?|?]%elem_of_cons.
Qed.

Lemma collect_lookup g src keys a : keyed_by g →
  KeyBitDictBase.collect src keys !! a =
    if decide (a ∈ prepare_key_for_value_assignment <$> keys)
    then text_at src (g a) else None.
Proof.
  intros Hg. unfold KeyBitDictBase.collect.
  rewrite (foldl_step_lookup g) by done. rewrite lookup_empty.
  destruct (decide _); [by destruct (text_at _ _)|done].
Qed.

Lemma field_outcome_text_at src data key :
  field_outcome src data key ↔
  data !! prepare_key_for_value_assignment key
    = text_at src (prepare_key_for_value_retrieving key).
Proof.
  unfold field_outcome, text_at, dict_get, present_text.
  by destruct (src !! _) as [[]|].
Qed.

Lemma collect_field_outcome g src keys : keyed_by g →
  Forall (field_outcome src (KeyBitDictBase.collect src keys)) keys.
Proof.
  intros Hg. apply Forall_forall. intros key Hkey.
  apply field_outcome_text_at. rewrite (collect_lookup g) by done.
  rewrite decide_True by by apply list_elem_of_fmap_2.
  by rewrite <- Hg.
Qed.

Lemma get_data_collect c src keys :
  get_source_dict c = Ok src → params c = Some keys →
  KeyBitDictBase.get_data c = Ok (DDict (KeyBitDictBase.collect src keys)).
Proof.
  intros Hsrc Hkeys. unfold KeyBitDictBase.get_data. by rewrite Hsrc, Hkeys.
Qed.

(** Any class whose retrieval key is a function of its assignment key
    keeps the contract on the list it is run with. *)
Lemma get_data_honours g c src keys : keyed_by g →
  get_source_dict c = Ok src → params c = Some keys →
  honours KeyBitDictBase.get_data c keys.
Proof.
  intros Hg Hsrc Hkeys. exists src, (KeyBitDictBase.collect src keys).
  split; [done|]. split; [|by apply (collect_field_outcome g)].
  by apply get_data_collect.
Qed.

End collect.

Lemma headers_keyed_by : keyed_by (D := HeadersKeyBit.hooks) prepare_header_name.
Proof. by intros key. Qed.

Lemma HeadersKeyBit_honours c keys : params c = Some keys →
  honours (D := HeadersKeyBit.hooks) HeadersKeyBit.get_data c keys.
Proof.
  intros Hkeys.
  by apply (get_data_honours prepare_header_name c (request_META (request c))).
Qed.

Lemma RequestMetaKeyBit_honours c keys : params c = Some keys →
  honours (D := RequestMetaKeyBit.hooks) RequestMetaKeyBit.get_data c keys.
Proof.
  intros Hkeys.
  by apply (get_data_honours (fun key => key) c (request_META (request c))).
Qed.

Lemma QueryParamsKeyBit_honours c keys : params c = Some keys →
  honours (D := QueryParamsKeyBit.hooks) QueryParamsKeyBit.get_data c keys.
Proof.
  intros Hkeys.
  by apply (get_data_honours (fun key => key) c (request_GET (request c))).
Qed.

(** The pagination bit runs the loop on the view's parameter names. *)
Lemma PaginationKeyBit_honours c :
  honours (D := QueryParamsKeyBit.hooks) PaginationKeyBit.get_data c
    (PaginationKeyBit.pagination_params (view_instance c)).
Proof.
  destruct (QueryParamsKeyBit_honours
    (with_params (Some (PaginationKeyBit.pagination_params (view_instance c))) c)
    (PaginationKeyBit.pagination_params (view_instance c)) eq_refl)
    as (src & data & Hsrc & Hdata & Hall).
  by exists src, data.
Qed.

(** The kwargs bit runs the loop on [params or kwargs.keys()]. *)
Lemma KwargsKeyBit_honours_effective c :
  honours (D := KwargsKeyBit.hooks) KwargsKeyBit.get_data c
    (KwargsKeyBit.params_or_keys (params c) (kwargs c)).
Proof.
  destruct (get_data_honours (D := KwargsKeyBit.hooks) (fun key => key)
    (with_params (Some (KwargsKeyBit.params_or_keys (params c) (kwargs c))) c)
    (kwargs c) (KwargsKeyBit.params_or_keys (params c) (kwargs c)))
    as (src & data & Hsrc & Hdata & Hall); try done.
  by exists src, data.
Qed.

Lemma KwargsKeyBit_honours c keys : params c = Some keys →
  honours (D := KwargsKeyBit.hooks) KwargsKeyBit.get_data c keys.
Proof.
  intros Hkeys.
  destruct (KwargsKeyBit_honours_effective c) as (src & data & Hsrc & Hdata & Hall).
  exists src, data. split; [done|]. split; [done|].
  rewrite Hkeys in Hall. destruct keys; [constructor | exact Hall].
Qed.

(** C1, as amended.  For the headers, request-meta, query-params and
    kwargs bits, called with a list of field names: a mapping is
    returned; a field name with nothing (or [None]) under its retrieval
    key in the source mapping has no entry, and a field name with a
    value there has the text of that value under its assignment key.  The
    pagination bit keeps the same promise for the page and page-size
    parameter names the view declares, not for the field names it is
    called with; the base class raises [NotImplementedError] before any
    mapping exists. *)
Theorem dict_source_contract (c : Ctx) (keys : list string) :
  params c = Some keys →
  honours (D := HeadersKeyBit.hooks) HeadersKeyBit.get_data c keys ∧
  honours (D := RequestMetaKeyBit.hooks) RequestMetaKeyBit.get_data c keys ∧
  honours (D := QueryParamsKeyBit.hooks) QueryParamsKeyBit.get_data c keys ∧
  honours (D := KwargsKeyBit.hooks) KwargsKeyBit.get_data c keys ∧
  honours (D := QueryParamsKeyBit.hooks) PaginationKeyBit.get_data c
    (PaginationKeyBit.pagination_params (view_instance c)) ∧
  KeyBitDictBase.get_data (D := KeyBitDictBase.hooks) c
    = Raise NotImplementedError.
Proof.
  intros Hkeys. repeat split.
  - by apply HeadersKeyBit_honours.
  - by apply RequestMetaKeyBit_honours.
  - by apply QueryParamsKeyBit_honours.
  - by apply KwargsKeyBit_honours.
  - apply PaginationKeyBit_honours.
Qed.

Lemma dict_source_contract_witness :
  params foo_ctx = Some ["foo"] ∧
  honours (D := QueryParamsKeyBit.hooks) QueryParamsKeyBit.get_data
    foo_ctx ["foo"].
Proof.
  split; [reflexivity|].
  exact (proj1 (proj2 (proj2 (dict_source_contract foo_ctx ["foo"] eq_refl)))).
Defined.

(** C1, as stated, fails on the pagination bit: called with the field
    ["foo"], which the query string carries with value ["x"], it returns
    only the page number. *)
Lemma dict_source_contract_counterexample :
  params foo_ctx = Some ["foo"] ∧
  request_GET (request foo_ctx) !! "foo" = Some (VStr "x") ∧
  PaginationKeyBit.get_data foo_ctx = Ok (DDict {["page" := "2"]}) ∧
  ¬ honours (D := QueryParamsKeyBit.hooks) PaginationKeyBit.get_data
      foo_ctx ["foo"].
Proof.
  assert (Hrun : PaginationKeyBit.get_data foo_ctx = Ok (DDict {["page" := "2"]}))
    by (vm_compute; reflexivity).
  split; [reflexivity|]. split; [reflexivity|]. split; [exact Hrun|].
  intros (src & data & Hsrc & Hdata & Hall).
  rewrite Hrun in Hdata. injection Hdata as <-.
  injection Hsrc as <-.
  apply Forall_cons in Hall as [Hfoo _].
  vm_compute in Hfoo. discriminate Hfoo.
Qed.

(** ** The kwargs bit *)

Lemma elem_of_keys (d : gmap string value) (k : string) :
  k ∈ KwargsKeyBit.keys d ↔ is_Some (d !! k).
Proof.
  unfold KwargsKeyBit.keys. rewrite list_elem_of_fmap. split.
  - intros ([k' v] & -> & Hin). apply elem_of_map_to_list in Hin. by exists v.
  - intros [v Hv]. exists (k, v). split; [done|]. by apply elem_of_map_to_list.
Qed.

(** Run on all the keys of a mapping, the loop keeps every value that is
    not [None], as text. *)
Lemma collect_all_keys (d : gmap string value) :
  KeyBitDictBase.collect (D := KwargsKeyBit.hooks) d (KwargsKeyBit.keys d)
    = omap present_text d.
Proof.
  apply map_eq. intros a.
  rewrite (collect_lookup (D := KwargsKeyBit.hooks) (fun key => key)) by done.
  rewrite lookup_omap. cbn [prepare_key_for_value_assignment KwargsKeyBit.hooks].
  rewrite list_fmap_id. unfold text_at, dict_get.
  destruct (decide _) as [Hin|Hnin].
  - apply elem_of_keys in Hin as [v ->]. done.
  - destruct (d !! a) as [v|] eqn:Hv; [|done].
    exfalso. apply Hnin, elem_of_keys. by rewrite Hv.
Qed.

Lemma KwargsKeyBit_no_fields c :
  params c = None ∨ params c = Some [] →
  KwargsKeyBit.get_data c = Ok (DDict (omap present_text (kwargs c))).
Proof.
  intros Hp. unfold KwargsKeyBit.get_data, KeyBitDictBase.get_data.
  cbn. rewrite <- collect_all_keys. by destruct Hp as [-> | ->].
Qed.

(** C7.  Called without configured fields, the kwargs bit looks up the
    keys of the keyword arguments, all of them and nothing else, and
    returns the text of every value that is not [None]; for the keyword
    arguments id=5, format=json the result is that very mapping. *)
Theorem kwargs_default_fields (c : Ctx) :
  params c = None →
  (∀ k, k ∈ KwargsKeyBit.params_or_keys (params c) (kwargs c)
        ↔ is_Some (kwargs c !! k)) ∧
  KwargsKeyBit.get_data c = Ok (DDict (omap present_text (kwargs c))) ∧
  (kwargs c = {["id" := VStr "5"; "format" := VStr "json"]} →
   KwargsKeyBit.get_data c = Ok (DDict {["id" := "5"; "format" := "json"]})).
Proof.
  intros Hp. split; [|split].
  - intros k. rewrite Hp. apply elem_of_keys.
  - apply KwargsKeyBit_no_fields. by left.
  - intros Hkw. rewrite KwargsKeyBit_no_fields by by left.
    rewrite Hkw. by vm_compute.
Qed.

Lemma kwargs_default_fields_witness :
  params sample_ctx = None ∧
  KwargsKeyBit.get_data sample_ctx
    = Ok (DDict {["id" := "5"; "format" := "json"]}).
Proof.
  split; [reflexivity|].
  exact (proj2 (proj2 (kwargs_default_fields sample_ctx eq_refl)) eq_refl).
Defined.

(** C10.  An empty list of fields is treated like no list: the kwargs
    bit returns what it returns without configured fields, the text of
    every keyword argument that is not [None]. *)
Theorem kwargs_empty_list_is_default (c : Ctx) :
  params c = Some [] →
  KwargsKeyBit.get_data c = KwargsKeyBit.get_data (with_params None c) ∧
  KwargsKeyBit.get_data c = Ok (DDict (omap present_text (kwargs c))) ∧
  (∀ k v, kwargs c !! k = Some v → v ≠ VNone →
     omap present_text (kwargs c) !! k = Some (force_text v)).
Proof.
  intros Hp. split; [|split].
  - rewrite (KwargsKeyBit_no_fields c) by by right.
    by rewrite (KwargsKeyBit_no_fields (with_params None c)) by by left.
  - apply KwargsKeyBit_no_fields. by right.
  - intros k v Hk Hv. rewrite lookup_omap, Hk. by destruct v.
Qed.

Lemma kwargs_empty_list_is_default_witness :
  params (with_params (Some []) sample_ctx) = Some [] ∧
  KwargsKeyBit.get_data (with_params (Some []) sample_ctx)
    = Ok (DDict {["id" := "5"; "format" := "json"]}).
Proof.
  split; [reflexivity|].
  rewrite (proj1 (proj2
    (kwargs_empty_list_is_default (with_params (Some []) sample_ctx) eq_refl))).
  by vm_compute.
Defined.

(** ** The pagination bit *)

Lemma elem_of_pagination_params (view : View) (a : string) :
  a ∈ PaginationKeyBit.pagination_params view ↔
  view_page_kwarg view = Some a ∨ view_paginate_by_param view = Some a.
Proof.
  unfold PaginationKeyBit.pagination_params.
  destruct (view_page_kwarg view) as [p|], (view_paginate_by_param view) as [q|];
    cbn; rewrite ?elem_of_cons, ?elem_of_nil;
    (split;
     [ intros H; repeat (destruct H as [->|H]; [by auto|]); done
     | intros [H|H]; try done; injection H as ->; auto ]).
Qed.

Lemma PaginationKeyBit_lookup c :
  ∃ data, PaginationKeyBit.get_data c = Ok (DDict data) ∧
    ∀ a, data !! a =
      if decide (a ∈ PaginationKeyBit.pagination_params (view_instance c))
      then text_at (request_GET (request c)) a else None.
Proof.
  eexists. split; [reflexivity|]. intros a.
  rewrite (collect_lookup (D := QueryParamsKeyBit.hooks) (fun key => key)) by done.
  cbn [prepare_key_for_value_assignment QueryParamsKeyBit.hooks].
  by rewrite list_fmap_id.
Qed.

(** C2, as amended.  The pagination bit looks up the page and page-size
    parameter names the view declares (each only if declared) in the
    query parameters and nothing else: the field names it is called with
    play no part.  With page parameter "page", page-size parameter
    "page_size" and the query parameters page=1, page_size=100 the result
    is that very mapping. *)
Theorem pagination_fields (c : Ctx) :
  (∃ data, PaginationKeyBit.get_data c = Ok (DDict data) ∧
     ∀ a, data !! a =
       if decide (view_page_kwarg (view_instance c) = Some a ∨
                  view_paginate_by_param (view_instance c) = Some a)
       then text_at (request_GET (request c)) a else None) ∧
  (∀ p, PaginationKeyBit.get_data (with_params p c)
        = PaginationKeyBit.get_data c) ∧
  (view_page_kwarg (view_instance c) = Some "page" →
   view_paginate_by_param (view_instance c) = Some "page_size" →
   request_GET (request c) = {["page" := VStr "1"; "page_size" := VStr "100"]} →
   PaginationKeyBit.get_data c
     = Ok (DDict {["page" := "1"; "page_size" := "100"]})).
Proof.
  split; [|split].
  - destruct (PaginationKeyBit_lookup c) as (data & Hdata & Hlookup).
    exists data. split; [done|]. intros a. rewrite Hlookup.
    destruct (decide (a ∈ _)) as [Hin|Hnin], (decide (_ ∨ _)) as [Hd|Hnd];
      try done; exfalso.
    + by apply Hnd, elem_of_pagination_params.
    + by apply Hnin, elem_of_pagination_params.
  - done.
  - intros Hpage Hsize HGET.
    unfold PaginationKeyBit.get_data, PaginationKeyBit.pagination_params,
      QueryParamsKeyBit.get_data, KeyBitDictBase.get_data.
    cbn. rewrite Hpage, Hsize, HGET. by vm_compute.
Qed.

Lemma pagination_fields_witness :
  view_page_kwarg (view_instance sample_ctx) = Some "page" ∧
  view_paginate_by_param (view_instance sample_ctx) = Some "page_size" ∧
  request_GET (request sample_ctx)
    = {["page" := VStr "1"; "page_size" := VStr "100"]} ∧
  PaginationKeyBit.get_data sample_ctx
    = Ok (DDict {["page" := "1"; "page_size" := "100"]}).
Proof.
  repeat (split; [reflexivity|]).
  exact (proj2 (proj2 (pagination_fields sample_ctx)) eq_refl eq_refl eq_refl).
Defined.

(** C2, as stated, fails: called with the field ["foo"], which the query
    string carries with value ["x"], the pagination bit returns the page
    number alone; ["foo"] was not looked up. *)
Lemma pagination_fields_counterexample :
  params foo_ctx = Some ["foo"] ∧
  request_GET (request foo_ctx) !! "foo" = Some (VStr "x") ∧
  PaginationKeyBit.get_data foo_ctx = Ok (DDict {["page" := "2"]}) ∧
  QueryParamsKeyBit.get_data
    (with_params (Some ["foo"; "page"; "page_size"]) foo_ctx)
    = Ok (DDict {["foo" := "x"; "page" := "2"]}) ∧
  ¬ pagination_adds_to_configured foo_ctx.
Proof.
  split; [reflexivity|]. split; [reflexivity|].
  split; [by vm_compute|]. split; [by vm_compute|].
  intros Hclaim. specialize (Hclaim ["foo"] eq_refl).
  vm_compute in Hclaim. discriminate Hclaim.
Qed.

(** ** The headers bit *)

(** C6.  For every configured header name the headers bit reads
    [request.META] under [prepare_header_name] of the lower-cased name
    and, when a value other than [None] is there, stores its text under
    the lower-cased name (no entry otherwise); with "Accept-Language"
    configured and "http_accept_language" set to "ru" in the environment
    the result is the mapping of "accept-language" to "ru". *)
Theorem headers_lookup (c : Ctx) (keys : list string) :
  params c = Some keys →
  (∃ data, HeadersKeyBit.get_data c = Ok (DDict data) ∧
     Forall (fun name =>
       match request_META (request c) !! prepare_header_name (lower name) with
       | None | Some VNone => data !! lower name = None
       | Some v => data !! lower name = Some (force_text v)
       end) keys) ∧
  (keys = ["Accept-Language"] →
   request_META (request c) !! "http_accept_language" = Some (VStr "ru") →
   HeadersKeyBit.get_data c = Ok (DDict {["accept-language" := "ru"]})).
Proof.
  intros Hkeys. split.
  - destruct (HeadersKeyBit_honours c keys Hkeys)
      as (src & data & Hsrc & Hdata & Hall).
    injection Hsrc as <-. by exists data.
  - intros -> Hru.
    unfold HeadersKeyBit.get_data.
    rewrite (get_data_collect (D := HeadersKeyBit.hooks) c
               (request_META (request c)) ["Accept-Language"]) by done.
    do 2 f_equal. apply map_eq. intros a.
    rewrite (collect_lookup (D := HeadersKeyBit.hooks) prepare_header_name)
      by apply headers_keyed_by.
    cbn [prepare_key_for_value_assignment HeadersKeyBit.hooks].
    change (lower <$> ["Accept-Language"]) with ["accept-language"].
    destruct (decide (a ∈ _)) as [Hin|Hnin].
    + apply list_elem_of_singleton in Hin as ->.
      rewrite lookup_singleton_eq.
      unfold text_at, dict_get.
      change (prepare_header_name _) with "http_accept_language".
      by rewrite Hru.
    + rewrite lookup_singleton_ne; [done|].
      intros <-. apply Hnin, list_elem_of_singleton. done.
Qed.

Lemma headers_lookup_witness :
  params (with_params (Some ["Accept-Language"]) sample_ctx)
    = Some ["Accept-Language"] ∧
  request_META (request sample_ctx) !! "http_accept_language"
    = Some (VStr "ru") ∧
  HeadersKeyBit.get_data (with_params (Some ["Accept-Language"]) sample_ctx)
    = Ok (DDict {["accept-language" := "ru"]}).
Proof.
  split; [reflexivity|]. split; [reflexivity|].
  exact (proj2 (headers_lookup
    (with_params (Some ["Accept-Language"]) sample_ctx) ["Accept-Language"]
    eq_refl) eq_refl eq_refl).
Defined.

(** ** The user bit *)

(** When the condition of [UserKeyBit.get_data] holds. *)
Lemma authenticated_true r :
  UserKeyBit.authenticated r = Ok true ↔
  ∃ u, request_user r = Some (UserObject u) ∧ user_is_authenticated u = true.
Proof.
  unfold UserKeyBit.authenticated. split.
  - destruct (request_user r) as [[|u]|]; cbn; try done.
    intros [= Hu]. by exists u.
  - intros (u & -> & Hu). cbn. by rewrite Hu.
Qed.

(** The condition never raises: [None] is not asked whether it is
    authenticated. *)
Lemma authenticated_total r : ∃ b, UserKeyBit.authenticated r = Ok b.
Proof.
  unfold UserKeyBit.authenticated.
  destruct (request_user r) as [[|u]|]; cbn; eauto.
Qed.

Lemma get_data_authenticated c u :
  request_user (request c) = Some (UserObject u) →
  user_is_authenticated u = true →
  UserKeyBit.get_data c = Ok (DText (force_text (user_id u))).
Proof.
  intros Hu Hauth. unfold UserKeyBit.get_data, UserKeyBit.authenticated.
  rewrite Hu. cbn. by rewrite Hauth.
Qed.

Lemma get_data_anonymous c :
  UserKeyBit.authenticated (request c) = Ok false →
  UserKeyBit.get_data c = Ok (DText "anonymous").
Proof. intros H. unfold UserKeyBit.get_data. by rewrite H. Qed.

(** C5.  With an authenticated user on the request the user bit returns
    the text of the user's id, "10" for the id 10; with no authenticated
    user it returns "anonymous". *)
Theorem user_bit (c : Ctx) :
  (∀ u, request_user (request c) = Some (UserObject u) →
        user_is_authenticated u = true →
        UserKeyBit.get_data c = Ok (DText (force_text (user_id u)))) ∧
  ((¬ ∃ u, request_user (request c) = Some (UserObject u) ∧
           user_is_authenticated u = true) →
   UserKeyBit.get_data c = Ok (DText "anonymous")) ∧
  (∀ u, request_user (request c) = Some (UserObject u) →
        user_is_authenticated u = true → user_id u = VInt 10 →
        UserKeyBit.get_data c = Ok (DText "10")).
Proof.
  split; [|split].
  - apply get_data_authenticated.
  - intros Hno. apply get_data_anonymous.
    destruct (authenticated_total (request c)) as [[|] Hb]; [|done].
    exfalso. by apply Hno, authenticated_true.
  - intros u Hu Hauth Hid.
    rewrite (get_data_authenticated c u Hu Hauth). by rewrite Hid.
Qed.

Lemma user_bit_witness :
  request_user (request sample_ctx)
    = Some (UserObject {| user_is_authenticated := true; user_id := VInt 10 |}) ∧
  UserKeyBit.get_data sample_ctx = Ok (DText "10") ∧
  request_user (request foo_ctx) = None ∧
  UserKeyBit.get_data foo_ctx = Ok (DText "anonymous").
Proof.
  split; [reflexivity|]. split; [|split; [reflexivity|]].
  - exact (proj2 (proj2 (user_bit sample_ctx)) _ eq_refl eq_refl eq_refl).
  - apply (proj1 (proj2 (user_bit foo_ctx))).
    intros (u & Hu & _). discriminate Hu.
Defined.

(** C9.  A request without the attribute [user], or with a false user
    ([None]), gets "anonymous" and nothing is raised; the branch of the
    authenticated user is entered only with the attribute there, a true
    user, and a user that says it is authenticated. *)
Theorem user_bit_anonymous_guard (c : Ctx) :
  (request_user (request c) = None →
   UserKeyBit.get_data c = Ok (DText "anonymous")) ∧
  (∀ user, request_user (request c) = Some user → truthy_user user = false →
   UserKeyBit.get_data c = Ok (DText "anonymous")) ∧
  (UserKeyBit.authenticated (request c) = Ok true →
   ∃ user, request_user (request c) = Some user ∧ truthy_user user = true ∧
           UserKeyBit.is_authenticated user = Ok true) ∧
  (UserKeyBit.authenticated (request c) ≠ Ok true →
   UserKeyBit.get_data c = Ok (DText "anonymous")).
Proof.
  split; [|split; [|split]].
  - intros Hnone. apply get_data_anonymous.
    unfold UserKeyBit.authenticated. by rewrite Hnone.
  - intros user Huser Hfalse. apply get_data_anonymous.
    unfold UserKeyBit.authenticated. by rewrite Huser, Hfalse.
  - intros (u & Hu & Hauth)%authenticated_true.
    exists (UserObject u). cbn. by rewrite Hauth.
  - intros Hne. apply get_data_anonymous.
    by destruct (authenticated_total (request c)) as [[|] Hb].
Qed.

Lemma user_bit_anonymous_guard_witness :
  request_user (request foo_ctx) = None ∧
  UserKeyBit.get_data foo_ctx = Ok (DText "anonymous").
Proof.
  split; [reflexivity|].
  exact (proj1 (user_bit_anonymous_guard foo_ctx) eq_refl).
Defined.

(** ** The SQL bits *)

Lemma list_sql_run c qs queryset :
  view_get_queryset (view_instance c) = Ok qs →
  view_filter_queryset (view_instance c) qs = Ok queryset →
  ListSqlQueryKeyBit.get_data c = sql_of_queryset queryset.
Proof.
  intros Hqs Hfiltered. unfold ListSqlQueryKeyBit.get_data.
  rewrite Hqs. cbn. by rewrite Hfiltered.
Qed.

(** C4, as amended.  Once [get_queryset] and [filter_queryset] have
    produced the filtered queryset, the list-SQL bit returns [None]
    (which is not the empty text) for the empty queryset; for any other
    it returns the text of the query, provided the query renders as
    text. *)
Theorem list_sql (c : Ctx) (qs queryset : QuerySet) :
  view_get_queryset (view_instance c) = Ok qs →
  view_filter_queryset (view_instance c) qs = Ok queryset →
  (isinstance_EmptyQuerySet queryset = true →
   ListSqlQueryKeyBit.get_data c = Ok DNone) ∧
  (isinstance_EmptyQuerySet queryset = false →
   ∀ text, query_str queryset = Ok text →
   ListSqlQueryKeyBit.get_data c = Ok (DText (force_text (VStr text)))) ∧
  DNone ≠ DText "".
Proof.
  intros Hqs Hfiltered. rewrite (list_sql_run c qs queryset Hqs Hfiltered).
  unfold sql_of_queryset. split; [|split].
  - by intros ->.
  - intros -> text ->. done.
  - done.
Qed.

Lemma list_sql_witness :
  view_get_queryset (view_instance narrowing_ctx) = Ok sample_queryset ∧
  view_filter_queryset (view_instance narrowing_ctx) sample_queryset
    = Ok published_queryset ∧
  isinstance_EmptyQuerySet published_queryset = false ∧
  query_str published_queryset = Ok "SELECT id FROM comment WHERE published" ∧
  ListSqlQueryKeyBit.get_data narrowing_ctx
    = Ok (DText "SELECT id FROM comment WHERE published").
Proof.
  repeat (split; [reflexivity|]).
  exact (proj1 (proj2
    (list_sql narrowing_ctx sample_queryset published_queryset eq_refl eq_refl))
    eq_refl "SELECT id FROM comment WHERE published" eq_refl).
Defined.

(** C4, as stated, fails: for a queryset that is not the empty one and
    whose query cannot be rendered, the list-SQL bit returns no text, it
    raises what the rendering raised. *)
Lemma list_sql_counterexample :
  view_get_queryset (view_instance unrenderable_ctx) = Ok unrenderable_queryset ∧
  view_filter_queryset (view_instance unrenderable_ctx) unrenderable_queryset
    = Ok unrenderable_queryset ∧
  isinstance_EmptyQuerySet unrenderable_queryset = false ∧
  ListSqlQueryKeyBit.get_data unrenderable_ctx
    = Raise (OtherException "EmptyResultSet") ∧
  ¬ list_sql_none_or_text unrenderable_ctx.
Proof.
  repeat (split; [reflexivity|]).
  intros Hclaim.
  destruct (Hclaim unrenderable_queryset unrenderable_queryset eq_refl eq_refl)
    as [text Htext].
  discriminate Htext.
Qed.

(** C3.  With the lookup value found in the view's path parameters, a
    [ValueError] raised while the queryset is filtered (by [filter] on
    the lookup field, or anywhere in the guarded block) makes the
    retrieve-SQL bit return [None]; nothing is raised. *)
Theorem retrieve_sql_conversion_error (c : Ctx) (lookup_value : value) :
  view_kwargs (view_instance c) !! view_lookup_field (view_instance c)
    = Some lookup_value →
  (∀ qs filtered,
     view_get_queryset (view_instance c) = Ok qs →
     view_filter_queryset (view_instance c) qs = Ok filtered →
     qs_filter filtered (view_lookup_field (view_instance c)) lookup_value
       = Raise ValueError →
     RetrieveSqlQueryKeyBit.get_data c = Ok DNone) ∧
  (RetrieveSqlQueryKeyBit.try_body (view_instance c) lookup_value
     = Raise ValueError →
   RetrieveSqlQueryKeyBit.get_data c = Ok DNone).
Proof.
  intros Hlookup.
  assert (Hbody : RetrieveSqlQueryKeyBit.try_body (view_instance c) lookup_value
                    = Raise ValueError →
                  RetrieveSqlQueryKeyBit.get_data c = Ok DNone).
  { intros Hraise.
    unfold RetrieveSqlQueryKeyBit.get_data, RetrieveSqlQueryKeyBit.lookup_value.
    rewrite Hlookup. cbn. by rewrite Hraise. }
  split; [|exact Hbody].
  intros qs filtered Hqs Hfiltered Hraise. apply Hbody.
  unfold RetrieveSqlQueryKeyBit.try_body.
  rewrite Hqs. cbn. rewrite Hfiltered. cbn. by rewrite Hraise.
Qed.

Lemma retrieve_sql_conversion_error_witness :
  view_kwargs (view_instance sample_ctx) !! view_lookup_field (view_instance sample_ctx)
    = Some (VStr "abc") ∧
  qs_filter sample_queryset "pk" (VStr "abc") = Raise ValueError ∧
  RetrieveSqlQueryKeyBit.get_data sample_ctx = Ok DNone.
Proof.
  split; [reflexivity|]. split; [reflexivity|].
  exact (proj1 (retrieve_sql_conversion_error sample_ctx (VStr "abc") eq_refl)
           sample_queryset sample_queryset eq_refl eq_refl eq_refl).
Defined.

(** ** No state between calls *)







(** [self.params] is looked at by the args bit only. *)
Lemma get_data_ignores_self_params bit c s s' :
  bit ≠ TheArgsKeyBit → active_language s' = active_language s →
  (get_data bit c s').1 = (get_data bit c s).1.
Proof.
  intros Hbit Hl. destruct bit; cbn; try done. by rewrite Hl.
Qed.




(** * Further properties of the bits *)

(** ** The loop of KeyBitDictBase.get_data, for any subclass *)

Section loop.
Context {D : DictSource}.

Lemma foldl_step_sound src keys : ∀ data a t,
  foldl (KeyBitDictBase.step src) data keys !! a = Some t →
  data !! a = Some t ∨
  ∃ key, key ∈ keys ∧ prepare_key_for_value_assignment key = a ∧
         text_at src (prepare_key_for_value_retrieving key) = Some t.
Proof.
  induction keys as [|key keys IH]; intros data a t Ha.
  - by left.
  - cbn [foldl] in Ha. apply IH in Ha as [Ha|(key' & Hin & Hk & Ht)].
    + rewrite step_lookup in Ha.
      destruct (decide (a = _)) as [->|Hne]; [|by left].
      destruct (text_at src _) as [t'|] eqn:Ht; [|by left].
      right. exists key. split; [apply elem_of_cons; by left|].
      split; [done|]. by rewrite Ht.
    + right. exists key'. split; [apply elem_of_cons; by right|done].
Qed.

Lemma foldl_step_keeps src keys : ∀ data a,
  is_Some (data !! a) → is_Some (foldl (KeyBitDictBase.step src) data keys !! a).
Proof.
  induction keys as [|key keys IH]; intros data a Ha; [done|].
  cbn [foldl]. apply IH. rewrite step_lookup.
  destruct (decide _); [|done]. by destruct (text_at src _).
Qed.

Lemma foldl_step_size src keys : ∀ data,
  (size (foldl (KeyBitDictBase.step src) data keys)
     ≤ size data + length keys)%nat.
Proof.
  induction keys as [|key keys IH]; intros data; cbn [foldl length].
  - lia.
  - etrans; [apply IH|]. unfold KeyBitDictBase.step.
    destruct (is_not_None _); [|lia].
    rewrite map_size_insert. destruct (data !! _); unfold id; lia.
Qed.

(** X1.  Whatever the key hooks of a subclass are, the loop of
    [KeyBitDictBase.get_data] invents nothing and drops nothing: an entry
    of the result is the text of a value other than [None] that the
    source holds under the retrieval key of a listed field with that
    assignment key, and a listed field with such a value has an entry
    under its assignment key. *)
Theorem collect_sound_complete (src : gmap string value) (keys : list string) :
  (∀ a t, KeyBitDictBase.collect src keys !! a = Some t →
     ∃ key v, key ∈ keys ∧ prepare_key_for_value_assignment key = a ∧
              src !! prepare_key_for_value_retrieving key = Some v ∧
              v ≠ VNone ∧ t = force_text v) ∧
  (∀ key v, key ∈ keys →
     src !! prepare_key_for_value_retrieving key = Some v → v ≠ VNone →
     is_Some (KeyBitDictBase.collect src keys
                !! prepare_key_for_value_assignment key)).
Proof.
  split.
  - intros a t Ha. apply foldl_step_sound in Ha as [Ha|(key & Hin & Hk & Ht)].
    + by rewrite lookup_empty in Ha.
    + unfold text_at, dict_get, present_text in Ht.
      destruct (src !! _) as [v|] eqn:Hv; [|done].
      exists key, v. destruct v; naive_solver.
  - intros key v Hin Hv Hnone. unfold KeyBitDictBase.collect.
    apply list_elem_of_split in Hin as (before & after & ->).
    rewrite foldl_app. cbn [foldl]. apply foldl_step_keeps.
    rewrite step_lookup, decide_True by done.
    unfold text_at, dict_get, present_text. rewrite Hv. by destruct v.
Qed.

(** X2.  The result of the loop has at most one entry per listed
    field. *)
Theorem collect_size (src : gmap string value) (keys : list string) :
  (size (KeyBitDictBase.collect src keys) ≤ length keys)%nat.
Proof.
  unfold KeyBitDictBase.collect.
  etrans; [apply foldl_step_size|]. by rewrite map_size_empty.
Qed.

End loop.

Lemma collect_sound_complete_witness :
  KeyBitDictBase.collect (D := HeadersKeyBit.hooks)
    (request_META sample_request) ["Accept-Language"] !! "accept-language"
    = Some "ru" ∧
  ∃ key v, key ∈ ["Accept-Language"] ∧ lower key = "accept-language" ∧
    request_META sample_request !! prepare_header_name (lower key) = Some v ∧
    v ≠ VNone ∧ "ru" = force_text v.
Proof.
  split; [reflexivity|].
  exact (proj1 (collect_sound_complete (D := HeadersKeyBit.hooks)
    (request_META sample_request) ["Accept-Language"])
    "accept-language" "ru" eq_refl).
Defined.

(** ** Order and spelling of the configured fields *)

Lemma collect_same_fields {D : DictSource} g src keys keys' :
  keyed_by g → (∀ key, key ∈ keys ↔ key ∈ keys') →
  KeyBitDictBase.collect src keys = KeyBitDictBase.collect src keys'.
Proof.
  intros Hg Hsame. apply map_eq. intros a.
  rewrite !(collect_lookup g) by done.
  destruct (decide (a ∈ _ <$> keys)) as [Hin|Hnin],
           (decide (a ∈ _ <$> keys')) as [Hin'|Hnin']; try done; exfalso.
  - apply list_elem_of_fmap in Hin as (key & -> & Hkey).
    apply Hnin', list_elem_of_fmap_2, Hsame, Hkey.
  - apply list_elem_of_fmap in Hin' as (key & -> & Hkey).
    apply Hnin, list_elem_of_fmap_2, Hsame, Hkey.
Qed.

Lemma same_fields_nil (keys keys' : list string) :
  (∀ key, key ∈ keys ↔ key ∈ keys') → keys = [] → keys' = [].
Proof.
  intros Hsame ->. destruct keys' as [|key keys']; [done|].
  exfalso. eapply not_elem_of_nil, Hsame, elem_of_cons. by left.
Qed.

Lemma HeadersKeyBit_run c keys :
  HeadersKeyBit.get_data (with_params (Some keys) c)
    = Ok (DDict (KeyBitDictBase.collect (D := HeadersKeyBit.hooks)
                   (request_META (request c)) keys)).
Proof. reflexivity. Qed.

Lemma RequestMetaKeyBit_run c keys :
  RequestMetaKeyBit.get_data (with_params (Some keys) c)
    = Ok (DDict (KeyBitDictBase.collect (D := RequestMetaKeyBit.hooks)
                   (request_META (request c)) keys)).
Proof. reflexivity. Qed.

Lemma QueryParamsKeyBit_run c keys :
  QueryParamsKeyBit.get_data (with_params (Some keys) c)
    = Ok (DDict (KeyBitDictBase.collect (D := QueryParamsKeyBit.hooks)
                   (request_GET (request c)) keys)).
Proof. reflexivity. Qed.

Lemma KwargsKeyBit_run c :
  KwargsKeyBit.get_data c
    = Ok (DDict (KeyBitDictBase.collect (D := KwargsKeyBit.hooks) (kwargs c)
                   (KwargsKeyBit.params_or_keys (params c) (kwargs c)))).
Proof. reflexivity. Qed.

(** X3.  The headers, request-meta, query-params and kwargs bits look
    at the configured fields as a set: two lists with the same members,
    in any order and with any repetitions, give the same result. *)
Theorem fields_as_set (c : Ctx) (keys keys' : list string) :
  (∀ key, key ∈ keys ↔ key ∈ keys') →
  HeadersKeyBit.get_data (with_params (Some keys) c)
    = HeadersKeyBit.get_data (with_params (Some keys') c) ∧
  RequestMetaKeyBit.get_data (with_params (Some keys) c)
    = RequestMetaKeyBit.get_data (with_params (Some keys') c) ∧
  QueryParamsKeyBit.get_data (with_params (Some keys) c)
    = QueryParamsKeyBit.get_data (with_params (Some keys') c) ∧
  KwargsKeyBit.get_data (with_params (Some keys) c)
    = KwargsKeyBit.get_data (with_params (Some keys') c).
Proof.
  intros Hsame. repeat split.
  - rewrite !HeadersKeyBit_run. do 2 f_equal.
    by apply (collect_same_fields prepare_header_name).
  - rewrite !RequestMetaKeyBit_run. do 2 f_equal.
    by apply (collect_same_fields (fun key => key)).
  - rewrite !QueryParamsKeyBit_run. do 2 f_equal.
    by apply (collect_same_fields (fun key => key)).
  - rewrite !KwargsKeyBit_run. do 2 f_equal. cbn [params kwargs with_params].
    destruct keys as [|key keys].
    + by rewrite (same_fields_nil [] keys' Hsame eq_refl).
    + destruct keys' as [|key' keys'].
      * exfalso. eapply not_elem_of_nil, Hsame, elem_of_cons. by left.
      * by apply (collect_same_fields (D := KwargsKeyBit.hooks) (fun key => key)).
Qed.

Lemma fields_as_set_witness :
  (∀ key, key ∈ ["page"; "foo"; "page"] ↔ key ∈ ["foo"; "page"]) ∧
  QueryParamsKeyBit.get_data (with_params (Some ["page"; "foo"; "page"]) foo_ctx)
    = QueryParamsKeyBit.get_data (with_params (Some ["foo"; "page"]) foo_ctx).
Proof.
  assert (Hsame : ∀ key : string, key ∈ ["page"; "foo"; "page"] ↔ key ∈ ["foo"; "page"]).
  { intros key. rewrite !elem_of_cons, !elem_of_nil. tauto. }
  split; [exact Hsame|].
  exact (proj1 (proj2 (proj2
    (fields_as_set foo_ctx ["page"; "foo"; "page"] ["foo"; "page"] Hsame)))).
Defined.

Lemma lower_ascii_idemp (a : ascii) : lower_ascii (lower_ascii a) = lower_ascii a.
Proof. by destruct a as [[] [] [] [] [] [] [] []]. Qed.

Lemma lower_idemp (s : string) : lower (lower s) = lower s.
Proof.
  induction s as [|a s IH]; [done|].
  cbn [lower]. by rewrite lower_ascii_idemp, IH.
Qed.

Lemma lower_fmap_idemp (keys : list string) :
  lower <$> (lower <$> keys) = lower <$> keys.
Proof.
  induction keys as [|key keys IH]; [done|].
  rewrite !fmap_cons. by rewrite lower_idemp, IH.
Qed.

(** In the headers bit a field counts through its lower-cased name
    only. *)
Lemma headers_collect_lower src keys :
  KeyBitDictBase.collect (D := HeadersKeyBit.hooks) src (lower <$> keys)
    = KeyBitDictBase.collect (D := HeadersKeyBit.hooks) src keys.
Proof.
  apply map_eq. intros a.
  rewrite !(collect_lookup (D := HeadersKeyBit.hooks) prepare_header_name)
    by apply headers_keyed_by.
  cbn [prepare_key_for_value_assignment HeadersKeyBit.hooks].
  change (fun key : string => lower key) with lower.
  by rewrite lower_fmap_idemp.
Qed.

(** X4.  Header names are configured without regard to case: two lists
    of names that agree once lower-cased give the same result, and every
    key of the result is in lower case. *)
Theorem headers_case_insensitive (c : Ctx) (keys keys' : list string) :
  lower <$> keys = lower <$> keys' →
  HeadersKeyBit.get_data (with_params (Some keys) c)
    = HeadersKeyBit.get_data (with_params (Some keys') c) ∧
  (∀ data a, HeadersKeyBit.get_data (with_params (Some keys) c) = Ok (DDict data) →
     is_Some (data !! a) → lower a = a).
Proof.
  intros Hlower. split.
  - rewrite !HeadersKeyBit_run.
    by rewrite <- (headers_collect_lower _ keys), Hlower, headers_collect_lower.
  - intros data a Hdata [t Ht]. rewrite HeadersKeyBit_run in Hdata.
    injection Hdata as <-.
    apply foldl_step_sound in Ht as [Ht|(key & _ & <- & _)].
    + by rewrite lookup_empty in Ht.
    + apply lower_idemp.
Qed.

Lemma headers_case_insensitive_witness :
  lower <$> ["ACCEPT-language"] = lower <$> ["Accept-Language"] ∧
  HeadersKeyBit.get_data (with_params (Some ["ACCEPT-language"]) sample_ctx)
    = HeadersKeyBit.get_data (with_params (Some ["Accept-Language"]) sample_ctx).
Proof.
  split; [reflexivity|].
  exact (proj1 (headers_case_insensitive sample_ctx
    ["ACCEPT-language"] ["Accept-Language"] eq_refl)).
Defined.

(** ** What the bits with plain keys return *)

Lemma text_at_omap (src : gmap string value) (a : string) :
  text_at src a = omap present_text src !! a.
Proof.
  rewrite lookup_omap. unfold text_at, dict_get.
  by destruct (src !! a).
Qed.

Lemma collect_submap {D : DictSource} src keys :
  keyed_by (fun key => key) →
  KeyBitDictBase.collect src keys ⊆ omap present_text src.
Proof.
  intros Hid. apply map_subseteq_spec. intros a t.
  rewrite (collect_lookup (fun key => key)) by done.
  destruct (decide _); [|done]. by rewrite text_at_omap.
Qed.

(** X5.  The request-meta, query-params, pagination and kwargs bits
    return a part of their source mapping: every entry of the result is
    an entry of the source under the same key, with the text of a value
    that is not [None]. *)
Theorem plain_bits_return_part_of_source (c : Ctx) (data : gmap string string) :
  (RequestMetaKeyBit.get_data c = Ok (DDict data) →
   data ⊆ omap present_text (request_META (request c))) ∧
  (QueryParamsKeyBit.get_data c = Ok (DDict data) →
   data ⊆ omap present_text (request_GET (request c))) ∧
  (PaginationKeyBit.get_data c = Ok (DDict data) →
   data ⊆ omap present_text (request_GET (request c))) ∧
  (KwargsKeyBit.get_data c = Ok (DDict data) →
   data ⊆ omap present_text (kwargs c)).
Proof.
  repeat split.
  - unfold RequestMetaKeyBit.get_data, KeyBitDictBase.get_data. cbn.
    destruct (params c) as [keys|]; [|done]. intros [= <-].
    by apply (collect_submap (D := RequestMetaKeyBit.hooks)).
  - unfold QueryParamsKeyBit.get_data, KeyBitDictBase.get_data. cbn.
    destruct (params c) as [keys|]; [|done]. intros [= <-].
    by apply (collect_submap (D := QueryParamsKeyBit.hooks)).
  - unfold PaginationKeyBit.get_data. rewrite QueryParamsKeyBit_run.
    intros [= <-]. by apply (collect_submap (D := QueryParamsKeyBit.hooks)).
  - rewrite KwargsKeyBit_run. intros [= <-].
    by apply (collect_submap (D := KwargsKeyBit.hooks)).
Qed.

Lemma plain_bits_return_part_of_source_witness :
  QueryParamsKeyBit.get_data foo_ctx = Ok (DDict {["foo" := "x"]}) ∧
  ({["foo" := "x"]} : gmap string string)
    ⊆ omap present_text (request_GET (request foo_ctx)).
Proof.
  assert (Hrun : QueryParamsKeyBit.get_data foo_ctx = Ok (DDict {["foo" := "x"]}))
    by reflexivity.
  split; [exact Hrun|].
  exact (proj1 (proj2 (plain_bits_return_part_of_source foo_ctx {["foo" := "x"]}))
           Hrun).
Defined.

(** ** Calls without a list of fields *)

(** X6.  Called with [params] None, the headers, request-meta and
    query-params bits raise [TypeError] and the base class raises
    [NotImplementedError] (its source comes first); the pagination and
    kwargs bits return a mapping whatever [params] is. *)
Theorem dict_bits_without_params (c : Ctx) :
  (params c = None →
   HeadersKeyBit.get_data c = Raise TypeError ∧
   RequestMetaKeyBit.get_data c = Raise TypeError ∧
   QueryParamsKeyBit.get_data c = Raise TypeError ∧
   KeyBitDictBase.get_data (D := KeyBitDictBase.hooks) c
     = Raise NotImplementedError) ∧
  (∃ data, PaginationKeyBit.get_data c = Ok (DDict data)) ∧
  (∃ data, KwargsKeyBit.get_data c = Ok (DDict data)).
Proof.
  split; [|split].
  - intros Hnone.
    unfold HeadersKeyBit.get_data, RequestMetaKeyBit.get_data,
      QueryParamsKeyBit.get_data, KeyBitDictBase.get_data.
    cbn. by rewrite Hnone.
  - eexists. unfold PaginationKeyBit.get_data. by rewrite QueryParamsKeyBit_run.
  - eexists. by rewrite KwargsKeyBit_run.
Qed.

Lemma dict_bits_without_params_witness :
  params sample_ctx = None ∧
  QueryParamsKeyBit.get_data sample_ctx = Raise TypeError.
Proof.
  split; [reflexivity|].
  exact (proj1 (proj2 (proj2
    (proj1 (dict_bits_without_params sample_ctx) eq_refl)))).
Defined.

(** ** The args bit *)

Lemma index_in_range args i : in_range args i →
  ∃ v, ArgsKeyBit.index args i = Ok v ∧
       args !! Z.to_nat (i mod Z.of_nat (length args)) = Some v.
Proof.
  unfold in_range, ArgsKeyBit.index. intros Hi.
  set (n := Z.of_nat (length args)) in *. cbn zeta.
  assert (Hmod : (i mod n)%Z = if (i <? 0)%Z then (i + n)%Z else i).
  { destruct (Z.ltb_spec i 0).
    - rewrite <- (Z.mod_small (i + n) n) by lia.
      by rewrite <- (Z.add_mod_idemp_r i n n), Z.mod_same, Z.add_0_r by lia.
    - apply Z.mod_small. lia. }
  rewrite <- Hmod.
  assert (0 ≤ i mod n < n)%Z as [Hlo Hhi] by (apply Z.mod_pos_bound; lia).
  destruct (Z.ltb_spec (i mod n) 0); [lia|].
  destruct (lookup_lt_is_Some_2 args (Z.to_nat (i mod n))) as [v Hv]; [lia|].
  exists v. by rewrite Hv.
Qed.

Lemma index_out_of_range args i : ¬ in_range args i →
  ArgsKeyBit.index args i = Raise IndexError.
Proof.
  unfold in_range, ArgsKeyBit.index. intros Hi. cbn zeta.
  destruct (Z.ltb_spec i 0).
  - destruct (Z.ltb_spec (i + Z.of_nat (length args)) 0); [done|lia].
  - destruct (Z.ltb_spec i 0); [lia|].
    rewrite lookup_ge_None_2; [done|lia].
Qed.

Lemma select_in_range args indexes : Forall (in_range args) indexes →
  ∃ l, ArgsKeyBit.select args indexes = Ok l ∧
       Forall2 (fun i v =>
         args !! Z.to_nat (i mod Z.of_nat (length args)) = Some v) indexes l.
Proof.
  induction 1 as [|i indexes Hi _ (l & Hl & Hall)].
  - by exists [].
  - destruct (index_in_range args i Hi) as (v & Hv & Hlookup).
    exists (v :: l). cbn [ArgsKeyBit.select]. rewrite Hv, Hl.
    split; [done|]. by constructor.
Qed.

Lemma select_out_of_range args indexes : ¬ Forall (in_range args) indexes →
  ArgsKeyBit.select args indexes = Raise IndexError.
Proof.
  induction indexes as [|i indexes IH]; intros Hnot.
  - destruct Hnot. constructor.
  - cbn [ArgsKeyBit.select].
    destruct (decide (in_range args i)) as [Hi|Hi].
    + destruct (index_in_range args i Hi) as (v & -> & _). cbn.
      rewrite IH; [done|]. intros Hrest. apply Hnot. by constructor.
    + by rewrite index_out_of_range.
Qed.

(** X7.  Configured with a list of positions, the args bit returns the
    arguments at those positions, one per position and in their order,
    a negative position counting from the end, when every position lies
    between [-len(args)] and [len(args) - 1]; with any position outside
    it raises [IndexError].  The [params] of the call play no part. *)
Theorem args_bit_positions (c : Ctx) (indexes : list Z) :
  (Forall (in_range (args c)) indexes →
   ∃ l, ArgsKeyBit.get_data (Some indexes) c = Ok (DList l) ∧
        Forall2 (fun i v =>
          args c !! Z.to_nat (i mod Z.of_nat (length (args c))) = Some v)
          indexes l) ∧
  (¬ Forall (in_range (args c)) indexes →
   ArgsKeyBit.get_data (Some indexes) c = Raise IndexError) ∧
  (∀ p, ArgsKeyBit.get_data (Some indexes) (with_params p c)
        = ArgsKeyBit.get_data (Some indexes) c).
Proof.
  split; [|split].
  - intros Hall. destruct (select_in_range _ _ Hall) as (l & Hl & Hl2).
    exists l. unfold ArgsKeyBit.get_data. by rewrite Hl.
  - intros Hnot. unfold ArgsKeyBit.get_data.
    by rewrite select_out_of_range.
  - done.
Qed.

Lemma args_bit_positions_witness :
  Forall (in_range (args foo_ctx)) [1; -2]%Z ∧
  ArgsKeyBit.get_data (Some [1; -2]%Z) foo_ctx = Ok (DList [VStr "b"; VStr "a"]) ∧
  ¬ Forall (in_range (args foo_ctx)) [2]%Z ∧
  ArgsKeyBit.get_data (Some [2]%Z) foo_ctx = Raise IndexError.
Proof.
  assert (Hin : Forall (in_range (args foo_ctx)) [1; -2]%Z).
  { repeat constructor; cbn; lia. }
  assert (Hout : ¬ Forall (in_range (args foo_ctx)) [2]%Z).
  { intros H. apply Forall_cons in H as [[_ H] _]. cbn in H. lia. }
  split; [exact Hin|]. split; [reflexivity|]. split; [exact Hout|].
  exact (proj1 (proj2 (args_bit_positions foo_ctx [2]%Z)) Hout).
Defined.

Lemma select_seq (args : list value) : ∀ count start,
  (start + count ≤ length args)%nat →
  ArgsKeyBit.select args (Z.of_nat <$> seq start count)
    = Ok (take count (drop start args)).
Proof.
  induction count as [|count IH]; intros start Hle.
  - done.
  - cbn [seq]. rewrite fmap_cons. cbn [ArgsKeyBit.select].
    destruct (lookup_lt_is_Some_2 args start) as [v Hv]; [lia|].
    assert (Hindex : ArgsKeyBit.index args (Z.of_nat start) = Ok v).
    { unfold ArgsKeyBit.index. cbn zeta.
      destruct (Z.ltb_spec (Z.of_nat start) 0); [lia|].
      destruct (Z.ltb_spec (Z.of_nat start) 0); [lia|].
      by rewrite Nat2Z.id, Hv. }
    rewrite Hindex, IH by lia. cbn.
    by rewrite (drop_S _ _ _ Hv).
Qed.

(** X8.  Configured with all the positions [0 .. len(args) - 1], the
    args bit returns a new list that holds the arguments in their order;
    without configured positions it returns the tuple of arguments
    itself.  The two results have the same members and are different
    values, a list and a tuple. *)
Theorem args_bit_all_positions (c : Ctx) :
  ArgsKeyBit.get_data (Some (positions (length (args c)))) c
    = Ok (DList (args c)) ∧
  ArgsKeyBit.get_data None c = Ok (DTuple (args c)) ∧
  ArgsKeyBit.get_data (Some (positions (length (args c)))) c
    ≠ ArgsKeyBit.get_data None c.
Proof.
  assert (H : ArgsKeyBit.get_data (Some (positions (length (args c)))) c
              = Ok (DList (args c))).
  { unfold ArgsKeyBit.get_data, positions.
    rewrite select_seq by lia. cbn. by rewrite drop_0, firstn_all. }
  split; [exact H|]. split; [done|]. by rewrite H.
Qed.

(** ** The identity bits *)

Lemma append_cons (a : ascii) (x y : string) :
  String a x ++ y = String a (x ++ y).
Proof. reflexivity. Qed.

Lemma append_nil_l (x : string) : "" ++ x = x.
Proof. reflexivity. Qed.

Lemma append_assoc (x y z : string) : (x ++ y) ++ z = x ++ (y ++ z).
Proof.
  induction x as [|a x IH]; [done|]. by rewrite !append_cons, IH.
Qed.

Lemma no_dot_after_dot (x y : string) : no_dot (x ++ String "." y) = false.
Proof.
  induction x as [|a x IH]; [done|].
  rewrite append_cons. cbn [no_dot]. rewrite IH. apply andb_false_r.
Qed.

(** A dotted name is cut at its last dot in one way only. *)
Lemma dotted_inj (m m' name name' : string) :
  no_dot name = true → no_dot name' = true →
  m ++ "." ++ name = m' ++ "." ++ name' → m = m' ∧ name = name'.
Proof.
  intros Hname Hname'. change ("." ++ name) with (String "." name).
  change ("." ++ name') with (String "." name'). revert m'.
  induction m as [|a m IH]; intros [|a' m'];
    rewrite ?append_cons, ?append_nil_l; intros Heq.
  - by injection Heq as ->.
  - injection Heq as _ ->. by rewrite no_dot_after_dot in Hname.
  - injection Heq as _ <-. by rewrite no_dot_after_dot in Hname'.
  - injection Heq as -> Heq. by destruct (IH _ Heq) as [-> ->].
Qed.

Lemma join_dot_3 (m class method : string) :
  join_dot [m; class; method] = join_dot [m; class] ++ "." ++ method.
Proof.
  change (m ++ "." ++ class ++ "." ++ method
          = (m ++ "." ++ class) ++ "." ++ method).
  by rewrite !append_assoc.
Qed.

(** X9.  With class names (and method names) free of dots, the view id
    tells module and class apart, and the method id tells module, class
    and method apart: two calls with the same id have the same parts.
    The method id is the view id, a dot, and the name of the method. *)
Theorem unique_ids (c c' : Ctx) :
  no_dot (view_class_name (view_instance c)) = true →
  no_dot (view_class_name (view_instance c')) = true →
  (UniqueViewIdKeyBit.get_data c = UniqueViewIdKeyBit.get_data c' →
   view_module (view_instance c) = view_module (view_instance c') ∧
   view_class_name (view_instance c) = view_class_name (view_instance c')) ∧
  (no_dot (method_name (view_method c)) = true →
   no_dot (method_name (view_method c')) = true →
   UniqueMethodIdKeyBit.get_data c = UniqueMethodIdKeyBit.get_data c' →
   view_module (view_instance c) = view_module (view_instance c') ∧
   view_class_name (view_instance c) = view_class_name (view_instance c') ∧
   method_name (view_method c) = method_name (view_method c')) ∧
  (∀ view_id, UniqueViewIdKeyBit.get_data c = Ok (DText view_id) →
   UniqueMethodIdKeyBit.get_data c
     = Ok (DText (view_id ++ "." ++ method_name (view_method c)))).
Proof.
  intros Hclass Hclass'. split; [|split].
  - intros [= Heq]. by apply dotted_inj.
  - intros Hmethod Hmethod' [= Heq]. rewrite !join_dot_3 in Heq.
    apply dotted_inj in Heq as [Heq ->]; [|done..].
    by apply dotted_inj in Heq as [-> ->].
  - intros view_id [= <-]. unfold UniqueMethodIdKeyBit.get_data.
    by rewrite join_dot_3.
Qed.

Lemma unique_ids_witness :
  UniqueViewIdKeyBit.get_data sample_ctx = Ok (DText "tests.views.CommentView") ∧
  UniqueMethodIdKeyBit.get_data sample_ctx
    = Ok (DText "tests.views.CommentView.list") ∧
  view_module (view_instance sample_ctx) = view_module (view_instance foo_ctx).
Proof.
  split; [reflexivity|]. split.
  - exact (proj2 (proj2 (unique_ids sample_ctx sample_ctx eq_refl eq_refl))
             "tests.views.CommentView" eq_refl).
  - exact (proj1 (proj1 (unique_ids sample_ctx foo_ctx eq_refl eq_refl) eq_refl)).
Defined.

(** ** Errors of the SQL bits *)

Lemma try_body_raises view v e :
  RetrieveSqlQueryKeyBit.try_body view v = Raise e
  ↔ retrieve_sql_raises_at view v e.
Proof.
  unfold RetrieveSqlQueryKeyBit.try_body, sql_of_queryset. split.
  - destruct (view_get_queryset view) as [qs|e1] eqn:Hqs; cbn.
    2: { intros [= ->]. by apply retrieve_get_queryset_raises. }
    destruct (view_filter_queryset view qs) as [filtered|e2] eqn:Hf; cbn.
    2: { intros [= ->]. by eapply retrieve_filter_queryset_raises. }
    destruct (qs_filter filtered _ v) as [queryset|e3] eqn:Hq; cbn.
    2: { intros [= ->]. by eapply retrieve_filter_raises. }
    destruct (isinstance_EmptyQuerySet queryset) eqn:Hempty; [done|].
    destruct (query_str queryset) as [text|e4] eqn:Hstr; cbn; [done|].
    intros [= ->]. by eapply retrieve_query_str_raises.
  - intros [Hqs | qs Hqs Hf | qs filtered Hqs Hf Hq
            | qs filtered queryset Hqs Hf Hq Hempty Hstr].
    + by rewrite Hqs.
    + rewrite Hqs. cbn. by rewrite Hf.
    + rewrite Hqs. cbn. rewrite Hf. cbn. by rewrite Hq.
    + rewrite Hqs. cbn. rewrite Hf. cbn. rewrite Hq. cbn.
      rewrite Hempty. by rewrite Hstr.
Qed.

(** X10.  The retrieve-SQL bit raises [KeyError] when the lookup field
    is not among the view's path parameters, whatever the queryset does.
    With the lookup value found, an exception met in [get_queryset],
    [filter_queryset], [filter] or the rendering of the query becomes
    [None] when it is a [ValueError] or of a subclass, and passes
    through otherwise; so the bit never raises a [ValueError], and what
    it raises comes from one of those places.  When the narrowed
    queryset is obtained the result is [None] for the empty queryset and
    the text of the query, when it renders, for any other. *)
Theorem retrieve_sql_outcomes (c : Ctx) :
  (view_kwargs (view_instance c) !! view_lookup_field (view_instance c) = None →
   RetrieveSqlQueryKeyBit.get_data c = Raise KeyError) ∧
  (∀ e, RetrieveSqlQueryKeyBit.get_data c = Raise e →
     is_ValueError e = false ∧
     ((view_kwargs (view_instance c) !! view_lookup_field (view_instance c) = None
       ∧ e = KeyError) ∨
      ∃ v, view_kwargs (view_instance c) !! view_lookup_field (view_instance c)
             = Some v ∧
           retrieve_sql_raises_at (view_instance c) v e)) ∧
  (∀ v e,
     view_kwargs (view_instance c) !! view_lookup_field (view_instance c) = Some v →
     retrieve_sql_raises_at (view_instance c) v e →
     RetrieveSqlQueryKeyBit.get_data c
       = if is_ValueError e then Ok DNone else Raise e) ∧
  (∀ v qs filtered queryset,
     view_kwargs (view_instance c) !! view_lookup_field (view_instance c) = Some v →
     view_get_queryset (view_instance c) = Ok qs →
     view_filter_queryset (view_instance c) qs = Ok filtered →
     qs_filter filtered (view_lookup_field (view_instance c)) v = Ok queryset →
     (isinstance_EmptyQuerySet queryset = true →
      RetrieveSqlQueryKeyBit.get_data c = Ok DNone) ∧
     (isinstance_EmptyQuerySet queryset = false →
      ∀ text, query_str queryset = Ok text →
      RetrieveSqlQueryKeyBit.get_data c = Ok (DText (force_text (VStr text))))).
Proof.
  unfold RetrieveSqlQueryKeyBit.get_data, RetrieveSqlQueryKeyBit.lookup_value.
  split; [|split; [|split]].
  - by intros ->.
  - intros e. destruct (view_kwargs _ !! _) as [v|]; cbn.
    + destruct (RetrieveSqlQueryKeyBit.try_body _ v) as [d|e'] eqn:Hbody;
        cbn; [done|].
      destruct (is_ValueError e') eqn:He'; [done|]. intros [= <-].
      split; [done|]. right. exists v. split; [done|].
      by apply try_body_raises.
    + intros [= <-]. split; [done|]. by left.
  - intros v e -> Hraises%try_body_raises. cbn. by rewrite Hraises.
  - intros v qs filtered queryset -> Hqs Hfiltered Hqueryset. cbn.
    unfold RetrieveSqlQueryKeyBit.try_body, sql_of_queryset.
    rewrite Hqs. cbn. rewrite Hfiltered. cbn. rewrite Hqueryset. cbn.
    split.
    + by intros ->.
    + intros -> text ->. done.
Qed.

Lemma retrieve_sql_outcomes_witness :
  view_kwargs (view_instance (failing_ctx "id"))
    !! view_lookup_field (view_instance (failing_ctx "id")) = None ∧
  RetrieveSqlQueryKeyBit.get_data (failing_ctx "id") = Raise KeyError ∧
  retrieve_sql_raises_at (view_instance (failing_ctx "pk")) (VStr "1") ValueError ∧
  RetrieveSqlQueryKeyBit.get_data (failing_ctx "pk") = Ok DNone.
Proof.
  split; [reflexivity|]. split.
  - exact (proj1 (retrieve_sql_outcomes (failing_ctx "id")) eq_refl).
  - assert (Hraises : retrieve_sql_raises_at (view_instance (failing_ctx "pk"))
                        (VStr "1") ValueError)
      by (by apply retrieve_get_queryset_raises).
    split; [exact Hraises|].
    exact (proj1 (proj2 (proj2 (retrieve_sql_outcomes (failing_ctx "pk"))))
             (VStr "1") ValueError eq_refl Hraises).
Defined.

Lemma list_sql_raises_iff c e :
  ListSqlQueryKeyBit.get_data c = Raise e
  ↔ list_sql_raises_at (view_instance c) e.
Proof.
  unfold ListSqlQueryKeyBit.get_data, sql_of_queryset. split.
  - destruct (view_get_queryset _) as [qs|e1] eqn:Hqs; cbn.
    2: { intros [= ->]. by apply list_get_queryset_raises. }
    destruct (view_filter_queryset _ qs) as [queryset|e2] eqn:Hf; cbn.
    2: { intros [= ->]. by eapply list_filter_queryset_raises. }
    destruct (isinstance_EmptyQuerySet queryset) eqn:Hempty; [done|].
    destruct (query_str queryset) as [text|e3] eqn:Hstr; cbn; [done|].
    intros [= ->]. by eapply list_query_str_raises.
  - intros [Hqs | qs Hqs Hf | qs queryset Hqs Hf Hempty Hstr].
    + by rewrite Hqs.
    + rewrite Hqs. cbn. by rewrite Hf.
    + rewrite Hqs. cbn. rewrite Hf. cbn. rewrite Hempty. by rewrite Hstr.
Qed.

(** X11.  The list-SQL bit catches nothing: it raises an exception
    exactly when [get_queryset], [filter_queryset] or the rendering of
    the query raises it.  A [ValueError] (or one of a subclass) from
    [get_queryset] or [filter_queryset] escapes the list-SQL bit, where
    the retrieve-SQL bit, its lookup value found, returns [None]. *)
Theorem list_sql_raises (c : Ctx) (e : exn) :
  (ListSqlQueryKeyBit.get_data c = Raise e
   ↔ list_sql_raises_at (view_instance c) e) ∧
  (∀ v,
     view_kwargs (view_instance c) !! view_lookup_field (view_instance c) = Some v →
     is_ValueError e = true →
     (view_get_queryset (view_instance c) = Raise e ∨
      ∃ qs, view_get_queryset (view_instance c) = Ok qs ∧
            view_filter_queryset (view_instance c) qs = Raise e) →
     ListSqlQueryKeyBit.get_data c = Raise e ∧
     RetrieveSqlQueryKeyBit.get_data c = Ok DNone).
Proof.
  split; [apply list_sql_raises_iff|].
  intros v Hv He Hwhere. split.
  - apply list_sql_raises_iff. destruct Hwhere as [Hqs|(qs & Hqs & Hf)].
    + by apply list_get_queryset_raises.
    + by eapply list_filter_queryset_raises.
  - unfold RetrieveSqlQueryKeyBit.get_data, RetrieveSqlQueryKeyBit.lookup_value.
    rewrite Hv. cbn.
    assert (Hbody : RetrieveSqlQueryKeyBit.try_body (view_instance c) v = Raise e).
    { apply try_body_raises. destruct Hwhere as [Hqs|(qs & Hqs & Hf)].
      - by apply retrieve_get_queryset_raises.
      - by eapply retrieve_filter_queryset_raises. }
    rewrite Hbody. cbn. by rewrite He.
Qed.

Lemma list_sql_raises_witness :
  view_kwargs (view_instance (failing_ctx "pk"))
    !! view_lookup_field (view_instance (failing_ctx "pk")) = Some (VStr "1") ∧
  view_get_queryset (view_instance (failing_ctx "pk")) = Raise ValueError ∧
  ListSqlQueryKeyBit.get_data (failing_ctx "pk") = Raise ValueError ∧
  RetrieveSqlQueryKeyBit.get_data (failing_ctx "pk") = Ok DNone.
Proof.
  split; [reflexivity|]. split; [reflexivity|].
  apply (proj2 (list_sql_raises (failing_ctx "pk") ValueError) (VStr "1"));
    [reflexivity | reflexivity | by left].
Defined.

(** ** What each class can return *)

Lemma UserKeyBit_total c : ∃ t, UserKeyBit.get_data c = Ok (DText t).
Proof.
  unfold UserKeyBit.get_data, UserKeyBit.authenticated.
  destruct (request_user (request c)) as [[|u]|]; cbn; eauto.
  destruct (user_is_authenticated u); cbn; eauto.
Qed.

Lemma dict_get_data_kind {D : DictSource} c d :
  KeyBitDictBase.get_data c = Ok d → kind_of d = KDict.
Proof.
  unfold KeyBitDictBase.get_data.
  destruct (get_source_dict c) as [src|]; cbn; [|done].
  destruct (params c); [|done]. by intros [= <-].
Qed.

Lemma sql_of_queryset_kind queryset d :
  sql_of_queryset queryset = Ok d → kind_of d ∈ [KNone; KText].
Proof.
  unfold sql_of_queryset. destruct (isinstance_EmptyQuerySet queryset).
  - intros [= <-]. apply elem_of_cons. by left.
  - destruct (query_str queryset); cbn; [|done].
    intros [= <-]. apply elem_of_cons. right. apply elem_of_cons. by left.
Qed.

Lemma except_ValueError_kind body d :
  (∀ d', body = Ok d' → kind_of d' ∈ [KNone; KText]) →
  RetrieveSqlQueryKeyBit.except_ValueError body = Ok d →
  kind_of d ∈ [KNone; KText].
Proof.
  intros Hbody. destruct body as [d'|e]; cbn.
  - intros [= <-]. by apply Hbody.
  - destruct (is_ValueError e); [|done].
    intros [= <-]. apply elem_of_cons. by left.
Qed.

Lemma get_data_kind bit c s d :
  (get_data bit c s).1 = Ok d → kind_of d ∈ kinds bit.
Proof.
  destruct bit; cbn [get_data M_lift M_bind get_language read_self_params
                     fst kinds].
  - done.
  - by cbn.
  - intros [= <-]. by apply list_elem_of_singleton.
  - intros [= <-]. by apply list_elem_of_singleton.
  - intros [= <-]. by apply list_elem_of_singleton.
  - intros [= <-]. by apply list_elem_of_singleton.
  - destruct (UserKeyBit_total c) as [t ->]. intros [= <-].
    by apply list_elem_of_singleton.
  - intros ->%dict_get_data_kind. by apply list_elem_of_singleton.
  - intros ->%dict_get_data_kind. by apply list_elem_of_singleton.
  - intros ->%dict_get_data_kind. by apply list_elem_of_singleton.
  - intros ->%dict_get_data_kind. by apply list_elem_of_singleton.
  - unfold ListSqlQueryKeyBit.get_data.
    destruct (view_get_queryset _) as [qs|]; cbn; [|done].
    destruct (view_filter_queryset _ qs) as [queryset|]; cbn; [|done].
    apply sql_of_queryset_kind.
  - unfold RetrieveSqlQueryKeyBit.get_data.
    destruct (RetrieveSqlQueryKeyBit.lookup_value _) as [v|]; cbn; [|done].
    apply except_ValueError_kind. intros d'.
    unfold RetrieveSqlQueryKeyBit.try_body.
    destruct (view_get_queryset _) as [qs|]; cbn; [|done].
    destruct (view_filter_queryset _ qs) as [filtered|]; cbn; [|done].
    destruct (qs_filter filtered _ v) as [queryset|]; cbn; [|done].
    apply sql_of_queryset_kind.
  - unfold ArgsKeyBit.get_data. destruct (self_params s) as [indexes|].
    + destruct (ArgsKeyBit.select _ indexes); cbn; [|done].
      intros [= <-]. apply elem_of_cons. by left.
    + intros [= <-]. apply elem_of_cons. right. apply elem_of_cons. by left.
  - intros ->%dict_get_data_kind. by apply list_elem_of_singleton.
Qed.

(** X12.  Every class returns results of its own kinds only: text from
    the identity, language, format and user bits, a mapping from the
    dict-source bits, [None] or text from the SQL bits, a new list or
    the tuple of arguments from the args bit.  The user bit returns text
    on every call: none of its attribute reads is reached on an object
    that lacks the attribute.  The two base classes raise
    [NotImplementedError] on every call. *)
Theorem result_kinds (bit : KeyBit) (c : Ctx) (s : Store) :
  (∀ d, (get_data bit c s).1 = Ok d → kind_of d ∈ kinds bit) ∧
  (∃ t, (get_data TheUserKeyBit c s).1 = Ok (DText t)) ∧
  (kinds bit = [] → (get_data bit c s).1 = Raise NotImplementedError).
Proof.
  split; [|split].
  - intros d. apply get_data_kind.
  - exact (UserKeyBit_total c).
  - by destruct bit.
Qed.

Lemma result_kinds_witness :
  (get_data TheArgsKeyBit foo_ctx english_store).1
    = Ok (DList [VStr "b"; VStr "b"]) ∧
  kind_of (DList [VStr "b"; VStr "b"]) ∈ kinds TheArgsKeyBit ∧
  kinds TheKeyBitDictBase = [] ∧
  (get_data TheKeyBitDictBase foo_ctx english_store).1
    = Raise NotImplementedError.
Proof.
  split; [reflexivity|]. split.
  - exact (proj1 (result_kinds TheArgsKeyBit foo_ctx english_store)
             (DList [VStr "b"; VStr "b"]) eq_refl).
  - split; [reflexivity|].
    exact (proj2 (proj2 (result_kinds TheKeyBitDictBase foo_ctx english_store))
             eq_refl).
Defined.
